(** * pdfbackend: a shallow embedding of [app.py]

    The service extracts the text of an uploaded PDF, normalises it with
    [clean_text], keeps it in the process-wide dictionary [uploaded_files]
    and relays a question about it to a remote chat-completion endpoint.
    The same pipeline is available as a one-shot command line.

    Python [str] values are sequences of Unicode code points: a text is a
    list of code points, each an [N]. *)

From Stdlib Require Import NArith ZArith String Ascii Lia.
From stdpp Require Import base list gmap.

Local Open Scope N_scope.

(** ** Text *)

Abbreviation text := (list N).

(** An ASCII literal of the source, as a text. *)
Definition cps (s : string) : text :=
  map N_of_ascii (list_ascii_of_string s).

Definition LF : N := 10.
Definition SP : N := 32.
Definition HYPHEN : N := 45.
Definition DOT : N := 46.
Definition LT : N := 60.
Definition GT : N := 62.
Definition NBSP : N := 160.      (* U+00A0 *)
Definition BULLET : N := 8226.   (* U+2022 *)

(** The replacement literal of line 46: U+00E2, U+20AC, U+00A2, space. *)
Definition MOJIBAKE_BULLET : text := [226; 8364; 162; 32].

(** [str.isspace] on one code point, which is also what [\s] matches in
    a [str] pattern: the white-space table of the Unicode database. *)
Definition isspace (c : N) : bool :=
  ((9 <=? c) && (c <=? 13)) || ((28 <=? c) && (c <=? 32))
  || (c =? 133) || (c =? 160) || (c =? 5760)
  || ((8192 <=? c) && (c <=? 8202))
  || (c =? 8232) || (c =? 8233) || (c =? 8239) || (c =? 8287)
  || (c =? 12288).

(** [[a-z]] *)
Definition is_lower_az (c : N) : bool := (97 <=? c) && (c <=? 122).

(** ** Regular-expression substitution

    A pattern is embedded as its matcher at a position: given the rest of
    the subject from that position, the length of the match the engine
    finds there, if any. *)

Definition matcher := text → option nat.

(** Length of the longest prefix whose characters all satisfy [p]: what a
    greedy [[class]+] or [[class]*] consumes. *)
Fixpoint span_len (p : N → bool) (s : text) : nat :=
  match s with
  | c :: s' => if p c then S (span_len p s') else O
  | [] => O
  end.

(** [<[^>]+>]: a [<], then greedily every character that is not [>]
    (at least one), then a [>].  Giving characters back cannot help, since
    all of them differ from [>]. *)
Definition match_tag : matcher := fun s =>
  match s with
  | c :: s' =>
      if c =? LT then
        let n := span_len (fun d => negb (d =? GT)) s' in
        match n, drop n s' with
        | S _, d :: _ => if d =? GT then Some (S (S n)) else None
        | _, _ => None
        end
      else None
  | [] => None
  end.

(** [\s+] *)
Definition match_ws : matcher := fun s =>
  match span_len isspace s with
  | O => None
  | S n => Some (S n)
  end.

(** [- (?=[a-z])]: hyphen, space, and a lower-case letter that is looked
    at but not consumed. *)
Definition match_hyphen_break : matcher := fun s =>
  match s with
  | c1 :: c2 :: c3 :: _ =>
      if (c1 =? HYPHEN) && (c2 =? SP) && is_lower_az c3 then Some 2%nat
      else None
  | _ => None
  end.

Fixpoint is_prefix (p s : text) : bool :=
  match p, s with
  | [], _ => true
  | a :: p', b :: s' => (a =? b) && is_prefix p' s'
  | _ :: _, [] => false
  end.

(** A literal, as [str.replace] searches it. *)
Definition match_lit (old : text) : matcher := fun s =>
  if is_prefix old s then Some (length old) else None.

(** Left-to-right replacement of the non-overlapping matches.  [skip]
    counts the characters of the current match still to be dropped. *)
Fixpoint sub_aux (m : matcher) (repl : text) (skip : nat) (s : text) : text :=
  match s with
  | [] => []
  | c :: s' =>
      match skip with
      | S k => sub_aux m repl k s'
      | O =>
          match m s with
          | Some (S k) => repl ++ sub_aux m repl k s'
          | _ => c :: sub_aux m repl O s'
          end
      end
  end.

(** [re.sub(pattern, repl, s)] for a pattern that matches no empty string. *)
Definition re_sub (m : matcher) (repl s : text) : text := sub_aux m repl O s.

(** [s.replace(old, new)] for a non-empty [old]. *)
Definition replace (old new s : text) : text := re_sub (match_lit old) new s.

(** [s.strip()] *)
Fixpoint lstrip (s : text) : text :=
  match s with
  | c :: s' => if isspace c then lstrip s' else s
  | [] => []
  end.

Fixpoint rstrip (s : text) : text :=
  match s with
  | [] => []
  | c :: s' =>
      match rstrip s' with
      | [] => if isspace c then [] else [c]
      | r => c :: r
      end
  end.

Definition strip (s : text) : text := rstrip (lstrip s).

(** ** [clean_text] (lines 41-48) *)

Definition clean_text (t : text) : text :=
  let t := re_sub match_tag [SP] t in
  let t := replace [LF; LF] [LF] t in
  let t := re_sub match_ws [SP] t in
  let t := re_sub match_hyphen_break [] t in
  let t := replace [BULLET] MOJIBAKE_BULLET t in
  let t := replace [NBSP] [SP] t in
  strip t.

(** ** Exceptions and JSON values *)

#[warning="-register-all"] Inductive json :=
| JNull
| JBool (b : bool)
| JInt (n : Z)
| JFloat (literal : text)
| JStr (s : text)
| JArr (items : list json)
| JObj (fields : list (text * json)).

(** The exceptions the handlers can meet.  [LibraryError] stands for
    whatever [open], PyPDF2 or [requests] raise, with its message. *)
Inductive exn :=
| KeyError (key : json)
| IndexError
| TypeError
| HTTPError (status_code : nat)
| LibraryError (message : text).

Inductive outcome (A : Type) :=
| Return (a : A)
| Raise (e : exn).
Arguments Return {A} a.
Arguments Raise {A} e.

Definition bind {A B} (x : outcome A) (f : A → outcome B) : outcome B :=
  match x with
  | Return a => f a
  | Raise e => Raise e
  end.

Notation "'let!' x ':=' e1 'in' e2" := (bind e1 (fun x => e2))
  (at level 10, x name, e1 at level 100, e2 at level 200).

Definition text_eqb (a b : text) : bool := bool_decide (a = b).

Fixpoint dict_get (k : text) (fields : list (text * json)) : option json :=
  match fields with
  | [] => None
  | (k', v) :: rest => if text_eqb k k' then Some v else dict_get k rest
  end.

(** [v[k]] for a string key [k]. *)
Definition getitem_key (v : json) (k : text) : outcome json :=
  match v with
  | JObj fields =>
      match dict_get k fields with
      | Some x => Return x
      | None => Raise (KeyError (JStr k))
      end
  | _ => Raise TypeError
  end.

(** [v[i]] for a non-negative integer [i]. *)
Definition getitem_index (v : json) (i : nat) : outcome json :=
  match v with
  | JArr items =>
      match items !! i with
      | Some x => Return x
      | None => Raise IndexError
      end
  | JStr s =>
      match s !! i with
      | Some c => Return (JStr [c])
      | None => Raise IndexError
      end
  | JObj _ => Raise (KeyError (JInt (Z.of_nat i)))
  | _ => Raise TypeError
  end.

(** ** The outside world

    What the program calls but does not define: the file system, PyPDF2,
    werkzeug's [secure_filename], [str.lower], the rendering [str(e)] of an
    exception, the environment variables and the remote endpoint. *)

Record message := { role : text; content : text }.

Record http_request := {
  url : text;
  headers : list (text * option text);
  model : text;
  messages : list message;
}.

(** A [requests] response: its status and what [.json()] gives. *)
Record http_response := {
  status_code : nat;
  json_body : outcome json;
}.

Record World := {
  stream : Type;                             (* open binary files *)
  page : Type;                               (* PyPDF2 page objects *)
  open_rb : text → outcome stream;           (* [open(path, "rb")] *)
  PdfReader : stream → outcome (list page);  (* [PdfReader(f).pages] *)
  extract_text : page → outcome text;        (* [page.extract_text()] *)
  secure_filename : text → text;
  lower : text → text;                       (* [str.lower] *)
  str_exn : exn → text;                      (* [str(e)] *)
  OPENROUTER_API_KEY : text;
  SITE_URL : option text;
  SITE_NAME : option text;
  requests_post : http_request → outcome http_response;
}.

(** ** Configuration and storage (lines 19-33) *)

Definition ALLOWED_EXTENSIONS : gset (list N) := {[ cps "pdf" ]}.

Record stored_file := { sf_filename : text; sf_text : text }.

(** [uploaded_files] *)
Abbreviation store := (gmap (list N) stored_file).

(** ** Helpers (lines 37-61) *)

Definition contains_char (c : N) (s : text) : bool := existsb (N.eqb c) s.

(** [s.rsplit(sep, 1)[1]] when [sep] occurs in [s]: what follows its last
    occurrence. *)
Fixpoint after_last (sep : N) (s : text) : option text :=
  match s with
  | [] => None
  | c :: s' =>
      match after_last sep s' with
      | Some e => Some e
      | None => if c =? sep then Some s' else None
      end
  end.

Definition allowed_file (W : World) (filename : text) : bool :=
  contains_char DOT filename &&
  match after_last DOT filename with
  | Some ext => bool_decide (lower W ext ∈ ALLOWED_EXTENSIONS)
  | None => false
  end.

(** The page loop of lines 56-58 and 80-81: [text += page.extract_text() + "\n"]. *)
Fixpoint read_pages (W : World) (pages : list (page W)) (acc : text)
  : outcome text :=
  match pages with
  | [] => Return acc
  | p :: rest =>
      let! t := extract_text W p in
      read_pages W rest (acc ++ t ++ [LF])
  end.

Definition extract_text_from_pdf (W : World) (pdf_path : text) : text :=
  let attempt :=
    let! file := open_rb W pdf_path in
    let! pages := PdfReader W file in
    let! t := read_pages W pages [] in
    Return (clean_text t) in
  match attempt with
  | Return t => t
  | Raise e => cps "Error extracting text: " ++ str_exn W e
  end.

(** ** HTTP surface *)

(** A Flask response: status and the [jsonify]-ed body. *)
Record reply := { status : nat; body : json }.

Definition jsonify (fields : list (text * json)) : reply :=
  {| status := 200; body := JObj fields |}.

Definition error_reply (msg : string) : reply :=
  {| status := 400; body := JObj [(cps "error", JStr (cps msg))] |}.

(** An entry of [request.files]. *)
Record FileStorage (W : World) := {
  filename : text;
  file_stream : stream W;
}.
Arguments filename {W} f.
Arguments file_stream {W} f.

Definition ELLIPSIS : text := cps "...".

(** [s[:500] + '...' if len(s) > 500 else s] (line 94) *)
Definition text_preview (s : text) : text :=
  if (500 <? length s)%nat then take 500 s ++ ELLIPSIS else s.

(** [upload_pdf] (lines 66-97).  [file] is [request.files.get('file')];
    [fresh_id] is the value [str(uuid4())] takes in this call.  The result
    is the response, or the exception that leaves the handler, and the
    dictionary [uploaded_files] afterwards.  In line 74 the truth value of
    [file] is that of its filename. *)
Definition upload_pdf (W : World) (fresh_id : text)
    (uploaded_files : store) (file : option (FileStorage W))
  : outcome reply * store :=
  match file with
  | None => (Return (error_reply "No file part in the request"), uploaded_files)
  | Some file =>
      if text_eqb (filename file) [] then
        (Return (error_reply "No file selected"), uploaded_files)
      else if negb (text_eqb (filename file) [])
              && allowed_file W (filename file) then
        let name := secure_filename W (filename file) in
        let extraction :=
          let! pages := PdfReader W (file_stream file) in
          read_pages W pages [] in
        match extraction with
        | Raise e => (Raise e, uploaded_files)
        | Return t =>
            let extracted_text := clean_text t in
            let file_id := fresh_id in
            (Return (jsonify
               [(cps "file_id", JStr file_id);
                (cps "filename", JStr name);
                (cps "text_length", JInt (Z.of_nat (length extracted_text)));
                (cps "text_preview", JStr (text_preview extracted_text))]),
             <[file_id := {| sf_filename := name; sf_text := extracted_text |}]>
               uploaded_files)
        end
      else (Return (error_reply "File type not allowed"), uploaded_files)
  end.

(** The [headers] dictionary of lines 115-120 and 172-177. *)
Definition api_headers (W : World) : list (text * option text) :=
  [(cps "Authorization", Some (cps "Bearer " ++ OPENROUTER_API_KEY W));
   (cps "HTTP-Referer", SITE_URL W);
   (cps "X-Title", SITE_NAME W);
   (cps "Content-Type", Some (cps "application/json"))].

Definition PROMPT_PREAMBLE : text :=
  cps "I'm analyzing a document with the following content:" ++ [LF; LF].

Definition PROMPT_CONNECTIVE : text :=
  [LF; LF] ++ cps "Based on this document, please answer: ".

(** The f-string of lines 122 and 178. *)
Definition prompt_text (extracted_text question : text) : text :=
  PROMPT_PREAMBLE ++ take 4000 extracted_text ++ ELLIPSIS
  ++ PROMPT_CONNECTIVE ++ question.

Definition COMPLETIONS_URL : text :=
  cps "https://openrouter.ai/api/v1/chat/completions".

Definition MODEL : text := cps "deepseek/deepseek-v3-base:free".

Definition HTTP_SYSTEM_PROMPT : text :=
  cps "You are a helpful medical assistant specialized in analyzing brain tumor medical reports. When a user provides a report, read the content carefully and explain the findings clearly and concisely. Present your explanation using numbered points. Focus on helping the user understand the medical terminology, diagnoses, and implications in simple language.".

Definition CLI_SYSTEM_PROMPT : text :=
  cps "You are an assistant that helps users understand their medical reports. When a user uploads a PDF of a medical report, extract the text and explain the contents of the report in simple, clear language.".

Definition chat_request (W : World) (system user : text) : http_request :=
  {| url := COMPLETIONS_URL;
     headers := api_headers W;
     model := MODEL;
     messages := [ {| role := cps "system"; content := system |};
                   {| role := cps "user"; content := user |} ] |}.

(** [response.raise_for_status()] *)
Definition raise_for_status (r : http_response) : outcome unit :=
  if (400 <=? status_code r)%nat && (status_code r <? 600)%nat
  then Raise (HTTPError (status_code r))
  else Return tt.

(** [result["choices"][0]["message"]["content"]] (lines 138 and 192) *)
Definition first_choice_content (result : json) : outcome json :=
  let! choices := getitem_key result (cps "choices") in
  let! choice := getitem_index choices 0 in
  let! msg := getitem_key choice (cps "message") in
  getitem_key msg (cps "content").

(** The body of the [try] of lines 135-138 and 189-192. *)
Definition fetch_answer (W : World) (req : http_request) : outcome json :=
  let! response := requests_post W req in
  let! _ := raise_for_status response in
  let! result := json_body response in
  first_choice_content result.

Definition AI_ERROR_PREFIX : text := cps "Error getting AI response: ".

(** The whole [try]/[except] of lines 134-140 and 188-194: the value
    bound to [ai_response]. *)
Definition ai_response_of (W : World) (req : http_request) : json :=
  match fetch_answer W req with
  | Return answer => answer
  | Raise e => JStr (AI_ERROR_PREFIX ++ str_exn W e)
  end.

(** The JSON body of a query: the two keys the handler looks at, with
    string values; [None] is a missing key. *)
Record query_data := {
  q_file_id : option text;
  q_prompt : option text;
}.

(** What a run did besides returning: the requests sent to the remote
    endpoint, in order. *)
Abbreviation outbound := (list http_request).

(** [query_pdf] (lines 102-146).  [data] is [request.json]; a body that is
    absent or an empty object is falsy. *)
Definition query_pdf (W : World) (uploaded_files : store)
    (data : option query_data) : reply * outbound :=
  match data with
  | Some {| q_file_id := Some file_id; q_prompt := Some prompt |} =>
      let extracted_text := sf_text <$> uploaded_files !! file_id in
      match extracted_text with
      | None | Some [] =>
          (error_reply "Invalid file_id or no PDF content found", [])
      | Some extracted_text =>
          let req :=
            chat_request W HTTP_SYSTEM_PROMPT (prompt_text extracted_text prompt) in
          (jsonify [(cps "file_id", JStr file_id);
                    (cps "prompt", JStr prompt);
                    (cps "response", ai_response_of W req)],
           [req])
      end
  | _ => (error_reply "file_id and prompt are required", [])
  end.

(** ** Command line (lines 155-198) *)

(** [sep.join(words)] *)
Fixpoint join (sep : text) (words : list text) : text :=
  match words with
  | [] => []
  | [w] => w
  | w :: rest => w ++ sep ++ join sep rest
  end.

(** A run of [run_cli_mode]: the arguments of the [print] calls in order,
    the requests sent, and the status passed to [sys.exit] ([None] when
    the function returns without exiting). *)
Record cli_run := {
  printed : list json;
  sent : outbound;
  exit_status : option nat;
}.

Definition run_cli_mode (W : World) (argv : list text) : cli_run :=
  if (1 <? length argv)%nat && bool_decide (argv !! 1%nat = Some (cps "--cli")) then
    if (length argv <? 4)%nat then
      {| printed := [JStr (cps "Usage: python app.py --cli <pdf_path> <query>")];
         sent := [];
         exit_status := Some 1%nat |}
    else
      let pdf_path := default [] (argv !! 2%nat) in
      let query := join [SP] (drop 3 argv) in
      let line1 := JStr (cps "Processing PDF: " ++ pdf_path) in
      let extracted_text := extract_text_from_pdf W pdf_path in
      if is_prefix (cps "Error") extracted_text then
        {| printed := [line1; JStr extracted_text];
           sent := [];
           exit_status := Some 1%nat |}
      else
        let req :=
          chat_request W CLI_SYSTEM_PROMPT (prompt_text extracted_text query) in
        {| printed := [line1;
                       JStr ([LF] ++ cps "Getting AI response...");
                       JStr ([LF] ++ cps "AI Response:");
                       ai_response_of W req];
           sent := [req];
           exit_status := Some 0%nat |}
  else {| printed := []; sent := []; exit_status := None |}.

(** ** Vocabulary of the properties *)

(** A string of the language of [<[^>]+>]. *)
Definition is_tag (t : text) : Prop :=
  ∃ inner, t = LT :: inner ++ [GT] ∧ inner ≠ [] ∧ GT ∉ inner.

Definition contains_tag (s : text) : Prop :=
  ∃ before t after, s = before ++ t ++ after ∧ is_tag t.

(** Every [<] is directly followed by [>] or has no [>] after it. *)
Fixpoint tagless (s : text) : Prop :=
  match s with
  | [] => True
  | c :: s' => (c = LT → head s' = Some GT ∨ GT ∉ s') ∧ tagless s'
  end.

(** No match of [m] starts anywhere in [s]. *)
Fixpoint unmatched (m : matcher) (s : text) : Prop :=
  match s with
  | [] => True
  | _ :: s' => (∀ j, m s ≠ Some (S j)) ∧ unmatched m s'
  end.

Definition head_space (s : text) : bool :=
  match s with
  | c :: _ => isspace c
  | [] => false
  end.

(** All white space is single, isolated U+0020 characters. *)
Fixpoint spaced (s : text) : Prop :=
  match s with
  | [] => True
  | c :: s' => (isspace c = true → c = SP ∧ head_space s' = false) ∧ spaced s'
  end.

(** Two U+0020 characters in a row. *)
Definition has_double_space (y : text) : Prop :=
  ∃ a b, y = a ++ SP :: SP :: b.

(** A hyphen, a space and a lower-case letter in a row: a match of the
    pattern of line 45. *)
Definition has_hyphen_break (y : text) : Prop :=
  ∃ a c b, y = a ++ HYPHEN :: SP :: c :: b ∧ is_lower_az c = true.

(** What every output of [clean_text] looks like. *)
Definition cleaned (y : text) : Prop :=
  tagless y
  ∧ (∀ c, c ∈ y → isspace c = true → c = SP)
  ∧ (BULLET ∉ y)
  ∧ head_space y = false
  ∧ rstrip y = y.

(** The text after the first three steps of [clean_text]. *)
Definition collapsed (x : text) : text :=
  re_sub match_ws [SP] (replace [LF; LF] [LF] (re_sub match_tag [SP] x)).

(** The shape of a text that [clean_text] leaves alone. *)
Definition normal (y : text) : Prop :=
  tagless y ∧ spaced y ∧ head_space y = false ∧ rstrip y = y
  ∧ (HYPHEN ∉ y) ∧ (BULLET ∉ y).

(** [name] ends in a dot followed by an extension that, lower-cased, is in
    the allow-list. *)
Definition has_allowed_extension (W : World) (name : text) : Prop :=
  ∃ stem ext,
    name = stem ++ DOT :: ext ∧ (DOT ∉ ext) ∧ lower W ext ∈ ALLOWED_EXTENSIONS.

(** The three ways the remote call of a handler can fail: the transport
    raises, the status is an error status, or the answer is not where the
    handler looks for it. *)
Inductive remote_failure (W : World) (req : http_request) : exn → Prop :=
| transport_error e :
    requests_post W req = Raise e →
    remote_failure W req e
| error_status response :
    requests_post W req = Return response →
    (400 ≤ status_code response < 600)%nat →
    remote_failure W req (HTTPError (status_code response))
| unexpected_shape response e :
    requests_post W req = Return response →
    ¬ (400 ≤ status_code response < 600)%nat →
    (let! result := json_body response in first_choice_content result)
      = Raise e →
    remote_failure W req e.

(** [excerpt] is the first 4000 characters of [context]: a prefix of it,
    at most 4000 characters long, exactly 4000 when [context] is longer
    and all of [context] otherwise. *)
Definition first_4000_of (excerpt context : text) : Prop :=
  (∃ rest, context = excerpt ++ rest)
  ∧ (length excerpt ≤ 4000)%nat
  ∧ ((4000 < length context)%nat → length excerpt = 4000%nat)
  ∧ ((length context ≤ 4000)%nat → excerpt = context).

(** The user prompt around an excerpt, with the three dots spelled out. *)
Definition framed (excerpt question : text) : text :=
  PROMPT_PREAMBLE ++ excerpt ++ cps "..." ++ PROMPT_CONNECTIVE ++ question.

(** The contents of the user-role messages of the requests sent. *)
Definition user_prompts (out : outbound) : list text :=
  out ≫= fun req =>
    content <$> filter (fun m => role m = cps "user") (messages req).

(** ** Sample worlds and inputs *)

Definition ascii_lower (s : text) : text :=
  map (fun c => if (65 <=? c) && (c <=? 90) then c + 32 else c) s.

Definition sample_str (e : exn) : text :=
  match e with
  | KeyError (JStr k) => [39] ++ k ++ [39]
  | KeyError _ => cps "0"
  | IndexError => cps "list index out of range"
  | TypeError => cps "object is not subscriptable"
  | HTTPError _ => cps "Client or Server Error"
  | LibraryError msg => msg
  end.

(** A world in which a file is the outcome of parsing it, and a page the
    outcome of extracting its text. *)
Definition sample_world
    (disk : text → outcome (outcome (list (outcome text))))
    (remote : http_request → outcome http_response) : World :=
  {| stream := outcome (list (outcome text));
     page := outcome text;
     open_rb := disk;
     PdfReader := fun f => f;
     extract_text := fun p => p;
     secure_filename := fun name => name;
     lower := ascii_lower;
     str_exn := sample_str;
     OPENROUTER_API_KEY := cps "sk-or-test";
     SITE_URL := None;
     SITE_NAME := None;
     requests_post := remote |}.

Definition no_disk : text → outcome (outcome (list (outcome text))) :=
  fun _ => Raise (LibraryError (cps "No such file or directory")).

Definition unreachable : http_request → outcome http_response :=
  fun _ => Raise (LibraryError (cps "Connection refused")).

Definition answering (answer : text) : http_request → outcome http_response :=
  fun _ => Return
    {| status_code := 200;
       json_body := Return (JObj [(cps "choices",
         JArr [JObj [(cps "message",
           JObj [(cps "role", JStr (cps "assistant"));
                 (cps "content", JStr answer)])]])]) |}.

Definition offline_world : World := sample_world no_disk unreachable.

(** An upload that PyPDF2 cannot parse. *)
Definition corrupt_upload : FileStorage offline_world :=
  Build_FileStorage offline_world
    (cps "scan.pdf")
    (Raise (LibraryError (cps "EOF marker not found"))).

(** A one-page upload. *)
Definition short_upload : FileStorage offline_world :=
  Build_FileStorage offline_world
    (cps "Note.PDF")
    (Return [Return (cps "blood  pressure  normal")]).

(** An upload whose only page is 600 letters long. *)
Definition long_page : text := replicate 600 120.

Definition long_upload : FileStorage offline_world :=
  Build_FileStorage offline_world
    (cps "long.pdf")
    (Return [Return long_page]).

Definition text_upload : FileStorage offline_world :=
  Build_FileStorage offline_world (cps "report.txt") (Return []).

(** A disk with one readable PDF whose text begins with the word Error. *)
Definition error_log_disk : text → outcome (outcome (list (outcome text))) :=
  fun path =>
    if text_eqb path (cps "log.pdf")
    then Return (Return [Return (cps "Error log of the MRI scanner")])
    else Raise (LibraryError (cps "No such file or directory")).

Definition error_log_world : World :=
  sample_world error_log_disk (answering (cps "It lists scanner faults.")).

(** A disk with one readable two-page PDF. *)
Definition two_page_disk : text → outcome (outcome (list (outcome text))) :=
  fun path =>
    if text_eqb path (cps "mri.pdf")
    then Return (Return [Return (cps "A-" ++ [LF] ++ cps "foo");
                         Return (cps "bar")])
    else Raise (LibraryError (cps "No such file or directory")).

Definition two_page_world : World := sample_world two_page_disk unreachable.

Definition sample_store : store :=
  {[ cps "id-1" := {| sf_filename := cps "mri.pdf";
                      sf_text := cps "No mass lesion." |} ]}.

Definition long_report : text := replicate 5000 120.

Definition long_store : store :=
  {[ cps "id-9" := {| sf_filename := cps "ct.pdf"; sf_text := long_report |} ]}.

Definition sample_markup : text :=
  [SP; SP] ++ cps "<b>Total</b>" ++ [LF; LF] ++ cps "12" ++ [NBSP]
  ++ cps "kg  <br/>" ++ [9; LF].

(** ** Vocabulary of the further properties *)

(** A character that no step of [clean_text] touches: no white space, no
    [<], no hyphen, no bullet. *)
Definition word_char (c : N) : bool :=
  negb (isspace c) && negb (c =? LT) && negb (c =? HYPHEN)
  && negb (c =? BULLET).

(** A non-empty run of such characters. *)
Definition is_word (w : text) : Prop :=
  w ≠ [] ∧ ∀ c, c ∈ w → word_char c = true.

(** The dictionary after a sequence of uploads, each given with the
    identifier drawn for it. *)
Definition after_uploads (W : World) (st : store)
    (uploads : list (text * option (FileStorage W))) : store :=
  fold_left (fun st u => (upload_pdf W u.1 st u.2).2) uploads st.

(** The text of page [p] is [t]. *)
Definition page_text (W : World) (p : page W) (t : text) : Prop :=
  extract_text W p = Return t.

(** ** Further sample worlds and inputs *)

(** A disk with one readable PDF of two pages without text. *)
Definition blank_disk : text → outcome (outcome (list (outcome text))) :=
  fun path =>
    if text_eqb path (cps "scan.pdf")
    then Return (Return [Return [SP; LF]; Return []])
    else Raise (LibraryError (cps "No such file or directory")).

Definition blank_world : World := sample_world blank_disk unreachable.

(** An upload whose only page has no text. *)
Definition blank_upload : FileStorage offline_world :=
  Build_FileStorage offline_world (cps "scan.pdf") (Return [Return [SP; LF]]).

(** An upload whose second page cannot be read. *)
Definition damaged_pages : list (outcome text) :=
  [Return (cps "page one");
   Raise (LibraryError (cps "Invalid Elementary Object"));
   Return (cps "page three")].

Definition answer_world : World :=
  sample_world no_disk (answering (cps "Likely benign.")).

(** What every request to the completion endpoint has in common. *)
Definition fixed_request_shape (W : World) (req : http_request) : Prop :=
  url req = cps "https://openrouter.ai/api/v1/chat/completions"
  ∧ model req = cps "deepseek/deepseek-v3-base:free"
  ∧ (cps "Authorization", Some (cps "Bearer " ++ OPENROUTER_API_KEY W))
      ∈ headers req
  ∧ ∃ system user,
      messages req = [ {| role := cps "system"; content := system |};
                       {| role := cps "user"; content := user |} ].

Definition USAGE : text := cps "Usage: python app.py --cli <pdf_path> <query>".

(** A world with the two-page PDF on disk and an answering endpoint. *)
Definition mri_world : World :=
  sample_world two_page_disk (answering (cps "Two words.")).

(** ** Vocabulary of the failure of the completion call *)

(** The decoded body [result] is an object whose [choices] is a list that
    starts with an object whose [message] is an object with the key
    [content], of value [v]. *)
Definition has_content (result v : json) : Prop :=
  ∃ fields rest choice msg,
    result = JObj fields
    ∧ dict_get (cps "choices") fields = Some (JArr (JObj choice :: rest))
    ∧ dict_get (cps "message") choice = Some (JObj msg)
    ∧ dict_get (cps "content") msg = Some v.

(** The completion call fails: the transport raises, the reply has a
    status from 400 to 599, its body does not decode, or the decoded body
    holds no [choices[0].message.content]. *)
Inductive completion_fails (W : World) (req : http_request) : Prop :=
| fails_transport e :
    requests_post W req = Raise e →
    completion_fails W req
| fails_status response :
    requests_post W req = Return response →
    (400 ≤ status_code response < 600)%nat →
    completion_fails W req
| fails_decoding response e :
    requests_post W req = Return response →
    json_body response = Raise e →
    completion_fails W req
| fails_shape response result :
    requests_post W req = Return response →
    json_body response = Return result →
    (∀ v, ¬ has_content result v) →
    completion_fails W req.

(** A remote endpoint that answers every request with [reply]. *)
Definition replying (reply : http_response)
  : http_request → outcome http_response :=
  fun _ => Return reply.

(** A reply with status 302 and a body of the expected shape. *)
Definition found_reply : http_response :=
  {| status_code := 302;
     json_body := Return (JObj [(cps "choices",
       JArr [JObj [(cps "message",
         JObj [(cps "content", JStr (cps "ok"))])]])]) |}.

Definition redirecting_world : World :=
  sample_world no_disk (replying found_reply).

(** A reply with status 200 whose body is the empty object. *)
Definition empty_reply : http_response :=
  {| status_code := 200; json_body := Return (JObj []) |}.

Definition shapeless_world : World :=
  sample_world no_disk (replying empty_reply).

(** ** The query handler on any request body

    [query_pdf] above takes the body as an object with string values.
    Here [request.json] may be aborted by Flask or yield any JSON value,
    and lines 103-109, which are outside the [try], may raise. *)

(** What the runtime decides: [str(v)] of a value that is not a string,
    and the truth value of a float given by its literal. *)
Record Runtime := {
  py_str : json → text;
  float_truth : text → bool;
}.

(** What [request.json] gives: an abort with an HTTP status, or the
    decoded value. *)
Inductive request_json :=
| Aborted (status : nat)
| Loaded (data : json).

(** How a handler ends: with its own response, with Flask's response to
    an abort, or with an exception nobody catches. *)
Inductive handled :=
| Replied (r : reply)
| AbortedWith (status : nat)
| Unhandled (e : exn).

(** [bool(v)] *)
Definition truthy (R : Runtime) (v : json) : bool :=
  match v with
  | JNull => false
  | JBool b => b
  | JInt n => negb (n =? 0)%Z
  | JFloat literal => float_truth R literal
  | JStr s => negb (text_eqb s [])
  | JArr items => match items with [] => false | _ => true end
  | JObj fields => match fields with [] => false | _ => true end
  end.

Fixpoint is_substring (p s : text) : bool :=
  is_prefix p s ||
  match s with
  | [] => false
  | _ :: s' => is_substring p s'
  end.

(** [k in v] for a string [k]: a key of a dict, an element of a list, a
    substring of a string; other values are not iterable. *)
Definition contains_key (k : text) (v : json) : outcome bool :=
  match v with
  | JObj fields =>
      Return match dict_get k fields with Some _ => true | None => false end
  | JArr items =>
      Return (existsb (fun x => match x with
                                | JStr s => text_eqb s k
                                | _ => false
                                end) items)
  | JStr s => Return (is_substring k s)
  | _ => Raise TypeError
  end.

(** [uploaded_files.get(file_id, {}).get('text', None)]: lists and dicts
    are unhashable; the keys of the dictionary are strings, so no other
    value is found. *)
Definition stored_text (uploaded_files : store) (file_id : json)
  : outcome (option text) :=
  match file_id with
  | JArr _ | JObj _ => Raise TypeError
  | JStr id => Return (sf_text <$> uploaded_files !! id)
  | _ => Return None
  end.

(** [f"{v}"] *)
Definition format_value (R : Runtime) (v : json) : text :=
  match v with
  | JStr s => s
  | _ => py_str R v
  end.

(** The test of line 104. *)
Definition fields_missing (R : Runtime) (data : json) : outcome bool :=
  if negb (truthy R data) then Return true
  else
    let! has_id := contains_key (cps "file_id") data in
    if negb has_id then Return true
    else
      let! has_prompt := contains_key (cps "prompt") data in
      Return (negb has_prompt).

(** [query_pdf] (lines 102-146) on any body. *)
Definition query_pdf_any (R : Runtime) (W : World) (uploaded_files : store)
    (body : request_json) : handled * outbound :=
  match body with
  | Aborted status => (AbortedWith status, [])
  | Loaded data =>
      match fields_missing R data with
      | Raise e => (Unhandled e, [])
      | Return true =>
          (Replied (error_reply "file_id and prompt are required"), [])
      | Return false =>
          let lookup :=
            let! file_id := getitem_key data (cps "file_id") in
            let! prompt := getitem_key data (cps "prompt") in
            let! extracted_text := stored_text uploaded_files file_id in
            Return (file_id, prompt, extracted_text) in
          match lookup with
          | Raise e => (Unhandled e, [])
          | Return (file_id, prompt, None)
          | Return (file_id, prompt, Some []) =>
              (Replied (error_reply "Invalid file_id or no PDF content found"),
               [])
          | Return (file_id, prompt, Some extracted_text) =>
              let req :=
                chat_request W HTTP_SYSTEM_PROMPT
                  (prompt_text extracted_text (format_value R prompt)) in
              (Replied (jsonify [(cps "file_id", file_id);
                                 (cps "prompt", prompt);
                                 (cps "response", ai_response_of W req)]),
               [req])
          end
      end
  end.

(** The object [fields] read as a [query_data], when the values under
    [file_id] and [prompt], if any, are strings. *)
Definition string_field (k : text) (fields : list (text * json))
  : option (option text) :=
  match dict_get k fields with
  | None => Some None
  | Some (JStr s) => Some (Some s)
  | Some _ => None
  end.

Definition as_query_data (fields : list (text * json)) : option query_data :=
  match string_field (cps "file_id") fields,
        string_field (cps "prompt") fields with
  | Some file_id, Some prompt =>
      Some {| q_file_id := file_id; q_prompt := prompt |}
  | _, _ => None
  end.

Definition sample_runtime : Runtime :=
  {| py_str := fun _ => cps "?"; float_truth := fun _ => true |}.

(** * Properties *)

(** ** Substitution *)

Section Substitution.
Context (m : matcher) (r : text).

Lemma sub_aux_elem k s x : x ∈ sub_aux m r k s → x ∈ s ∨ x ∈ r.
Proof.
  revert k. induction s as [|c s IH]; intros k; simpl; [by left|].
  destruct k as [|k].
  - destruct (m (c :: s)) as [[|j]|];
      rewrite ?elem_of_app, !elem_of_cons; intros [H|H];
      try destruct (IH _ H); subst; auto.
  - rewrite elem_of_cons. intros H. destruct (IH _ H); auto.
Qed.

Lemma re_sub_elem s x : x ∈ re_sub m r s → x ∈ s ∨ x ∈ r.
Proof. apply sub_aux_elem. Qed.

Lemma re_sub_unmatched s : unmatched m s → re_sub m r s = s.
Proof.
  unfold re_sub. induction s as [|c s IH]; simpl; [done|].
  intros [Hm Hs]. destruct (m (c :: s)) as [[|j]|] eqn:E.
  - by rewrite IH.
  - by destruct (Hm j).
  - by rewrite IH.
Qed.

(** A matcher whose matches all start with a character satisfying [p]
    finds nothing in a text without such characters. *)
Lemma unmatched_without (p : N → bool) s :
  (∀ t j, m t = Some (S j) → ∃ c t', t = c :: t' ∧ p c = true) →
  (∀ c, c ∈ s → p c = false) →
  unmatched m s.
Proof.
  intros Hm. induction s as [|c s IH]; simpl; [done|].
  intros Hs. split.
  - intros j E. destruct (Hm _ _ E) as (d & t' & [= <- <-] & Hp).
    rewrite Hs in Hp; [done|]. apply elem_of_cons; auto.
  - apply IH. intros d Hd. apply Hs, elem_of_cons; auto.
Qed.
End Substitution.

Lemma is_prefix_head c old s :
  is_prefix (c :: old) s = true → ∃ s', s = c :: s'.
Proof.
  destruct s as [|d s]; simpl; [done|].
  intros [->%N.eqb_eq _]%andb_true_iff. eauto.
Qed.

Lemma replace_without c old new s :
  c ∉ s → replace (c :: old) new s = s.
Proof.
  intros Hc. apply re_sub_unmatched.
  apply (unmatched_without _ (N.eqb c)).
  - intros t j. unfold match_lit.
    destruct (is_prefix (c :: old) t) eqn:E; [|done].
    destruct (is_prefix_head _ _ _ E) as [t' ->]. intros _.
    exists c, t'. by rewrite N.eqb_refl.
  - intros d Hd. apply N.eqb_neq. intros ->. done.
Qed.

Lemma hyphen_break_without s :
  HYPHEN ∉ s → re_sub match_hyphen_break [] s = s.
Proof.
  intros Hc. apply re_sub_unmatched.
  apply (unmatched_without _ (N.eqb HYPHEN)).
  - intros [|c1 [|c2 [|c3 t]]] j; simpl; try done.
    destruct (c1 =? HYPHEN) eqn:E; simpl; [|done].
    apply N.eqb_eq in E. subst c1. intros _. by exists HYPHEN, (c2 :: c3 :: t).
  - intros d Hd. apply N.eqb_neq. intros <-. done.
Qed.

(** Replacing a single character leaves no occurrence of it. *)
Lemma replace_char_absent c d s : c ≠ d → c ∉ replace [c] [d] s.
Proof.
  intros Hcd. unfold replace, re_sub. generalize 0%nat.
  induction s as [|x s IH]; intros k; simpl; [apply not_elem_of_nil|].
  destruct k as [|k]; [|apply IH].
  unfold match_lit; simpl. rewrite andb_true_r.
  destruct (c =? x) eqn:E; simpl.
  - apply not_elem_of_cons. split; [done|apply IH].
  - apply not_elem_of_cons. split; [|apply IH].
    apply N.eqb_neq in E. done.
Qed.

(** ** Tags *)

Lemma span_len_drop p s :
  match drop (span_len p s) s with
  | [] => ∀ c, c ∈ s → p c = true
  | d :: _ => p d = false
  end.
Proof.
  induction s as [|c s IH]; simpl.
  - intros c Hc. by apply elem_of_nil in Hc.
  - destruct (p c) eqn:E; simpl; [|done].
    destruct (drop (span_len p s) s); [|done].
    intros d [->|Hd]%elem_of_cons; auto.
Qed.

Lemma span_len_all p s : (∀ c, c ∈ s → p c = true) → span_len p s = length s.
Proof.
  induction s as [|c s IH]; simpl; [done|]. intros H.
  rewrite H by (apply elem_of_cons; auto).
  rewrite IH; [done|]. intros d Hd. apply H, elem_of_cons; auto.
Qed.

Lemma match_tag_positive t : match_tag t ≠ Some O.
Proof.
  destruct t as [|c t]; simpl; [done|]. destruct (c =? LT); [|done].
  destruct (span_len _ t); [done|]. destruct (drop _ t) as [|d ?]; [done|].
  by destruct (d =? GT).
Qed.

(** Where the pattern fails at a [<], the [<] is followed by [>] or by no
    [>] at all. *)
Lemma match_tag_fails s :
  match_tag (LT :: s) = None → head s = Some GT ∨ GT ∉ s.
Proof.
  simpl. pose proof (span_len_drop (fun d => negb (d =? GT)) s) as H.
  destruct (span_len _ s) as [|n] eqn:En.
  - intros _. destruct s as [|d s]; [right; apply not_elem_of_nil|].
    simpl in H. apply negb_false_iff, N.eqb_eq in H as ->. by left.
  - destruct (drop (S n) s) as [|d t].
    + intros _. right. intros Hin. apply H in Hin. by rewrite N.eqb_refl in Hin.
    + rewrite (negb_false_iff _) in H. by rewrite H.
Qed.

Lemma match_tag_closed s :
  head s = Some GT ∨ GT ∉ s → match_tag (LT :: s) = None.
Proof.
  unfold match_tag. rewrite N.eqb_refl. cbv zeta. intros [H|H].
  - destruct s as [|d s]; [done|]. injection H as ->. done.
  - rewrite span_len_all.
    { destruct (length s) eqn:E; [done|]. by rewrite <- E, drop_all. }
    intros c Hc. apply negb_true_iff, N.eqb_neq. by intros ->.
Qed.

Lemma match_tag_head c s j : match_tag (c :: s) = Some j → c = LT.
Proof. simpl. destruct (c =? LT) eqn:E; [|done]. by apply N.eqb_eq in E. Qed.

Local Arguments match_tag : simpl never.

Lemma tagless_unmatched s : tagless s → unmatched match_tag s.
Proof.
  induction s as [|c s IH]; [done|]. intros [Hc Hs].
  split; [|by apply IH]. intros j E.
  pose proof (match_tag_head _ _ _ E) as ->.
  by rewrite (match_tag_closed _ (Hc eq_refl)) in E.
Qed.

Lemma tagless_sub_tag k s : tagless (sub_aux match_tag [SP] k s).
Proof.
  revert k. induction s as [|c s IH]; intros k; simpl; [done|].
  destruct k as [|k]; [|apply IH].
  destruct (match_tag (c :: s)) as [[|j]|] eqn:E.
  - by destruct (match_tag_positive (c :: s)).
  - simpl. split; [done|apply IH].
  - simpl. split; [|apply IH]. intros ->.
    destruct (match_tag_fails _ E) as [H|H].
    + destruct s as [|d s]; [done|]. injection H as ->. by left.
    + right. intros [Hin|Hin]%sub_aux_elem; [done|].
      by apply list_elem_of_singleton in Hin.
Qed.

Lemma tagless_app r t : LT ∉ r → tagless t → tagless (r ++ t).
Proof.
  induction r as [|c r IH]; simpl; [done|].
  intros [Hc Hr]%not_elem_of_cons Ht. split; [|by apply IH].
  intros ->. done.
Qed.

Lemma tagless_drop_app r t : tagless (r ++ t) → tagless t.
Proof. induction r as [|c r IH]; simpl; [done|]. intros [_ H]. by apply IH. Qed.

(** A substitution that never starts a match at [>] and inserts neither
    [<] nor [>] keeps a text free of tags. *)
Lemma tagless_sub (m : matcher) r :
  (∀ t j, m (GT :: t) ≠ Some (S j)) → LT ∉ r → GT ∉ r →
  ∀ s k, tagless s → tagless (sub_aux m r k s).
Proof.
  intros Hm Hlt Hgt. induction s as [|c s IH]; intros k; simpl; [done|].
  intros [Hc Hs]. destruct k as [|k]; [|by apply IH].
  assert (tagless (c :: sub_aux m r 0 s)) as Hkeep.
  { simpl. split; [|by apply IH]. intros Hlt'.
    destruct (Hc Hlt') as [H|H].
    - destruct s as [|d s]; [done|]. injection H as ->. left. simpl.
      destruct (m (GT :: s)) as [[|j]|] eqn:E; try done.
      by destruct (Hm s j).
    - right. intros [Hin|Hin]%sub_aux_elem; done. }
  destruct (m (c :: s)) as [[|j]|]; try done.
  apply tagless_app; [done|by apply IH].
Qed.

Lemma tagless_no_tag s : tagless s → ¬ contains_tag s.
Proof.
  intros H (before & t & after & -> & inner & -> & Hne & Hgt).
  apply tagless_drop_app in H. simpl in H. destruct H as [H _].
  destruct (H eq_refl) as [Hh|Hn].
  - destruct inner as [|d inner]; [done|]. simpl in Hh. injection Hh as ->.
    apply Hgt, elem_of_cons. auto.
  - apply Hn. rewrite <- app_assoc. apply elem_of_app. right.
    apply elem_of_cons. auto.
Qed.

(** ** Stripping *)

Lemma lstrip_elem s x : x ∈ lstrip s → x ∈ s.
Proof.
  induction s as [|c s IH]; simpl; [done|].
  destruct (isspace c); [|done]. intros H. apply elem_of_cons. auto.
Qed.

Lemma rstrip_elem s x : x ∈ rstrip s → x ∈ s.
Proof.
  induction s as [|c s IH]; simpl; [done|].
  destruct (rstrip s) as [|d r].
  - destruct (isspace c); [by intros ?%elem_of_nil|].
    intros ->%list_elem_of_singleton. apply elem_of_cons. auto.
  - intros [->|H]%elem_of_cons; apply elem_of_cons; auto.
Qed.

Lemma strip_elem s x : x ∈ strip s → x ∈ s.
Proof. intros H. by apply lstrip_elem, rstrip_elem. Qed.

Lemma rstrip_head_inv s d r : rstrip s = d :: r → ∃ t, s = d :: t.
Proof.
  destruct s as [|c s]; simpl; [done|].
  destruct (rstrip s); [destruct (isspace c)|]; intros [= <- _]; eauto.
Qed.

Lemma rstrip_keeps_head c s :
  isspace c = false → ∃ r, rstrip (c :: s) = c :: r.
Proof. simpl. intros ->. destruct (rstrip s); eauto. Qed.

Lemma rstrip_idem s : rstrip (rstrip s) = rstrip s.
Proof.
  induction s as [|c s IH]; simpl; [done|].
  destruct (rstrip s) as [|d r] eqn:E.
  - destruct (isspace c) eqn:Ec; simpl; [done|]. by rewrite Ec.
  - change (rstrip (c :: d :: r)) with
      (match rstrip (d :: r) with
       | [] => if isspace c then [] else [c]
       | r' => c :: r'
       end).
    by rewrite IH.
Qed.

Lemma head_space_lstrip s : head_space (lstrip s) = false.
Proof.
  induction s as [|c s IH]; simpl; [done|].
  destruct (isspace c) eqn:E; [done|]. simpl. done.
Qed.

Lemma head_space_rstrip s : head_space s = false → head_space (rstrip s) = false.
Proof.
  intros H. destruct (rstrip s) as [|d r] eqn:E; [done|].
  destruct (rstrip_head_inv _ _ _ E) as [t ->]. done.
Qed.

Lemma lstrip_id s : head_space s = false → lstrip s = s.
Proof. destruct s as [|c s]; simpl; [done|]. by intros ->. Qed.

Lemma strip_idem s : strip (strip s) = strip s.
Proof.
  unfold strip. rewrite (lstrip_id (rstrip _)).
  - apply rstrip_idem.
  - apply head_space_rstrip, head_space_lstrip.
Qed.

Lemma tagless_lstrip s : tagless s → tagless (lstrip s).
Proof.
  induction s as [|c s IH]; simpl; [done|]. intros [Hc Hs].
  destruct (isspace c); [by apply IH|done].
Qed.

Lemma tagless_rstrip s : tagless s → tagless (rstrip s).
Proof.
  induction s as [|c s IH]; simpl; [done|]. intros [Hc Hs].
  destruct (rstrip s) as [|d r] eqn:E.
  - destruct (isspace c); [done|]. simpl. split; [|done].
    intros _. right. apply not_elem_of_nil.
  - split; [|by apply IH]. intros Hlt. destruct (Hc Hlt) as [H|H].
    + destruct (rstrip_head_inv _ _ _ E) as [t ->]. by left.
    + right. intros Hin. apply H, rstrip_elem. by rewrite E.
Qed.

(** ** White space *)

Lemma head_space_sub_ws s :
  head_space (sub_aux match_ws [SP] (span_len isspace s) s) = false.
Proof.
  induction s as [|c s IH]; simpl; [done|].
  destruct (isspace c) eqn:E; [done|].
  unfold match_ws. simpl. rewrite E. simpl. done.
Qed.

Lemma spaced_sub_ws k s : spaced (sub_aux match_ws [SP] k s).
Proof.
  revert k. induction s as [|c s IH]; intros k; simpl; [done|].
  destruct k as [|k]; [|apply IH].
  unfold match_ws at 1. simpl span_len. destruct (isspace c) eqn:E.
  - simpl. split; [|apply IH]. intros _. split; [done|].
    apply head_space_sub_ws.
  - simpl. split; [|apply IH]. by rewrite E.
Qed.

(** Collapsing white space changes nothing where it is already collapsed. *)
Lemma re_sub_ws_spaced s : spaced s → re_sub match_ws [SP] s = s.
Proof.
  unfold re_sub. induction s as [|c s IH]; simpl; [done|].
  intros [Hc Hs]. unfold match_ws at 1. simpl span_len.
  destruct (isspace c) eqn:E.
  - destruct (Hc eq_refl) as [-> Hh].
    assert (span_len isspace s = 0%nat) as ->.
    { destruct s as [|d s]; simpl in *; [done|]. by rewrite Hh. }
    simpl. by rewrite IH.
  - by rewrite IH.
Qed.

Lemma spaced_lstrip s : spaced s → spaced (lstrip s).
Proof.
  induction s as [|c s IH]; simpl; [done|]. intros [Hc Hs].
  destruct (isspace c) eqn:E; [by apply IH|].
  simpl. split; [by rewrite E|done].
Qed.

Lemma spaced_rstrip s : spaced s → spaced (rstrip s).
Proof.
  induction s as [|c s IH]; simpl; [done|]. intros [Hc Hs].
  destruct (rstrip s) as [|d r] eqn:E.
  - destruct (isspace c) eqn:Ec; [done|]. simpl. by rewrite Ec.
  - split; [|by apply IH]. intros Hsp. destruct (Hc Hsp) as [-> Hh].
    split; [done|]. destruct (rstrip_head_inv _ _ _ E) as [t ->]. done.
Qed.

(** In a collapsed text the only white-space character is U+0020. *)
Lemma spaced_only_sp s c : spaced s → c ∈ s → isspace c = true → c = SP.
Proof.
  induction s as [|d s IH]; simpl; [by intros _ ?%elem_of_nil|].
  intros [Hd Hs] [->|Hin]%elem_of_cons Hc; [by apply Hd|by apply IH].
Qed.

(** ** The text cleaner *)

Ltac absent :=
  repeat (apply not_elem_of_cons; split; [by compute|]); apply not_elem_of_nil.

Lemma match_lit_at_GT c old t j :
  c ≠ GT → match_lit (c :: old) (GT :: t) ≠ Some j.
Proof.
  intros Hc. unfold match_lit. simpl.
  destruct (c =? GT) eqn:E; [|done]. by apply N.eqb_eq in E.
Qed.

Lemma match_ws_at_GT t j : match_ws (GT :: t) ≠ Some j.
Proof. done. Qed.

Lemma match_hyphen_break_at_GT t j : match_hyphen_break (GT :: t) ≠ Some j.
Proof. by destruct t as [|a [|b t]]. Qed.

Lemma tagless_collapsed x : tagless (collapsed x).
Proof.
  unfold collapsed, replace, re_sub.
  apply tagless_sub; [intros; apply match_ws_at_GT|absent|absent|].
  apply tagless_sub; [intros; by apply match_lit_at_GT|absent|absent|].
  apply tagless_sub_tag.
Qed.

Lemma collapsed_elem x c : c ∉ x → c ≠ SP → c ≠ LF → c ∉ collapsed x.
Proof.
  intros Hx Hsp Hlf. unfold collapsed, replace.
  intros [[[H|H]%re_sub_elem|H]%re_sub_elem|H]%re_sub_elem;
    try apply list_elem_of_singleton in H; done.
Qed.

Lemma clean_text_tagless x : tagless (clean_text x).
Proof.
  unfold clean_text, strip, replace, re_sub.
  apply tagless_rstrip, tagless_lstrip.
  apply tagless_sub; [intros; by apply match_lit_at_GT|absent|absent|].
  apply tagless_sub; [intros; by apply match_lit_at_GT|absent|absent|].
  apply tagless_sub;
    [intros; apply match_hyphen_break_at_GT|absent|absent|].
  apply tagless_collapsed.
Qed.

(** Without hyphens and bullets, steps four to six change nothing. *)
Lemma clean_text_plain x :
  HYPHEN ∉ x → BULLET ∉ x → clean_text x = strip (collapsed x).
Proof.
  intros Hh Hb. unfold clean_text. cbv zeta. fold (collapsed x).
  rewrite hyphen_break_without by (by apply collapsed_elem).
  rewrite (replace_without BULLET) by (by apply collapsed_elem).
  rewrite (replace_without NBSP); [done|].
  intros Hin. by apply (spaced_only_sp (collapsed x)) in Hin;
    [|apply spaced_sub_ws|].
Qed.

Lemma clean_text_normal x : HYPHEN ∉ x → BULLET ∉ x → normal (clean_text x).
Proof.
  intros Hh Hb. split; [apply clean_text_tagless|].
  rewrite clean_text_plain by done. unfold strip. repeat split.
  - apply spaced_rstrip, spaced_lstrip, spaced_sub_ws.
  - apply head_space_rstrip, head_space_lstrip.
  - apply rstrip_idem.
  - intros Hin%rstrip_elem%lstrip_elem. revert Hin. by apply collapsed_elem.
  - intros Hin%rstrip_elem%lstrip_elem. revert Hin. by apply collapsed_elem.
Qed.

Lemma clean_text_fixpoint y : normal y → clean_text y = y.
Proof.
  intros (Ht & Hs & Hh & Hr & Hy & Hb).
  assert (∀ c, isspace c = true → c ≠ SP → c ∉ y) as Hws.
  { intros c Hc Hne Hin. by apply Hne, (spaced_only_sp y). }
  unfold clean_text. cbv zeta.
  rewrite (re_sub_unmatched match_tag) by (by apply tagless_unmatched).
  rewrite (replace_without LF) by (by apply Hws).
  rewrite re_sub_ws_spaced by done.
  rewrite hyphen_break_without by done.
  rewrite (replace_without BULLET) by done.
  rewrite (replace_without NBSP) by (by apply Hws).
  unfold strip. by rewrite lstrip_id.
Qed.

(** *** When cleaning twice is cleaning once *)

Lemma replace_absent c new s : c ∉ new → c ∉ replace [c] new s.
Proof.
  intros Hnew. unfold replace, re_sub. generalize 0%nat.
  induction s as [|x s IH]; intros k; simpl; [apply not_elem_of_nil|].
  destruct k as [|k]; [|apply IH].
  unfold match_lit; simpl. rewrite andb_true_r.
  destruct (c =? x) eqn:E; simpl.
  - apply not_elem_of_app. split; [done|apply IH].
  - apply not_elem_of_cons. split; [|apply IH].
    apply N.eqb_neq in E. done.
Qed.

Lemma clean_text_cleaned x : cleaned (clean_text x).
Proof.
  split; [apply clean_text_tagless|]. unfold clean_text. cbv zeta.
  fold (collapsed x). unfold strip. repeat split.
  - intros c Hin%rstrip_elem%lstrip_elem Hc.
    destruct (decide (c = SP)) as [|Hne]; [done|exfalso].
    unfold replace in Hin.
    apply re_sub_elem in Hin as [Hin|Hin];
      [|by apply list_elem_of_singleton in Hin].
    apply re_sub_elem in Hin as [Hin|Hin].
    + apply re_sub_elem in Hin as [Hin|Hin]; [|by apply elem_of_nil in Hin].
      by apply Hne, (spaced_only_sp (collapsed x)); [apply spaced_sub_ws|..].
    + unfold MOJIBAKE_BULLET in Hin.
      repeat (apply elem_of_cons in Hin as [->|Hin]; [done|]).
      by apply elem_of_nil in Hin.
  - intros Hin%rstrip_elem%lstrip_elem. unfold replace in Hin.
    apply re_sub_elem in Hin as [Hin|Hin];
      [|by apply list_elem_of_singleton in Hin].
    revert Hin. apply replace_absent. absent.
  - apply head_space_rstrip, head_space_lstrip.
  - apply rstrip_idem.
Qed.

(** On a cleaned text only the white-space and hyphen steps can act. *)
Lemma clean_text_on_cleaned y :
  cleaned y →
  clean_text y
  = strip (re_sub match_hyphen_break [] (re_sub match_ws [SP] y)).
Proof.
  intros (Ht & Hws & Hb & Hh & Hr).
  assert (∀ c, c ≠ SP → c ∉ y →
            c ∉ re_sub match_hyphen_break [] (re_sub match_ws [SP] y)) as Hout.
  { intros c Hne Hc [[Hin|Hin]%re_sub_elem|Hin]%re_sub_elem;
      [done|by apply list_elem_of_singleton in Hin|by apply elem_of_nil in Hin]. }
  assert (∀ c, isspace c = true → c ≠ SP → c ∉ y) as Habs.
  { intros c Hc Hne Hin. by apply Hne, Hws. }
  unfold clean_text. cbv zeta.
  rewrite (re_sub_unmatched match_tag) by (by apply tagless_unmatched).
  rewrite (replace_without LF) by (by apply Habs).
  rewrite (replace_without BULLET) by (by apply Hout).
  rewrite (replace_without NBSP); [done|]. apply Hout; [done|by apply Habs].
Qed.

Lemma sub_aux_length m r k s :
  (length r ≤ 1)%nat → (length (sub_aux m r k s) ≤ length s)%nat.
Proof.
  intros Hr. revert k. induction s as [|c s IH]; intros k; simpl; [done|].
  destruct k as [|k].
  - destruct (m (c :: s)) as [[|j]|]; rewrite ?length_app; simpl;
      [pose proof (IH 0%nat)|pose proof (IH j)|pose proof (IH 0%nat)]; lia.
  - specialize (IH k). lia.
Qed.

Lemma lstrip_length s : (length (lstrip s) ≤ length s)%nat.
Proof.
  induction s as [|c s IH]; simpl; [done|].
  destruct (isspace c); simpl; lia.
Qed.

Lemma rstrip_length s : (length (rstrip s) ≤ length s)%nat.
Proof.
  induction s as [|c s IH]; simpl; [done|].
  destruct (rstrip s); [destruct (isspace c)|]; simpl in *; lia.
Qed.

(** Collapsing white space keeps the length only where every white-space
    character stands alone. *)
Lemma re_sub_ws_same_length s :
  (∀ c, c ∈ s → isspace c = true → c = SP) →
  length (re_sub match_ws [SP] s) = length s → spaced s.
Proof.
  unfold re_sub. induction s as [|c s IH]; simpl; [done|].
  intros Hws. unfold match_ws at 1. simpl span_len.
  assert (∀ d, d ∈ s → isspace d = true → d = SP) as Hws'.
  { intros d Hd. apply Hws, elem_of_cons. auto. }
  destruct (isspace c) eqn:E; simpl; intros [= Hlen].
  - destruct s as [|d s].
    + split; [|done]. intros _. split; [|done]. apply Hws; [|done].
      apply elem_of_cons. auto.
    + simpl in Hlen. destruct (isspace d) eqn:Ed.
      * pose proof (sub_aux_length match_ws [SP] (span_len isspace s) s).
        simpl in *. lia.
      * split; [|by apply IH]. intros _. split; [|done].
        apply Hws; [|done]. apply elem_of_cons. auto.
  - split; [done|by apply IH].
Qed.

Lemma re_sub_hyphen_break_same_length s :
  length (re_sub match_hyphen_break [] s) = length s →
  unmatched match_hyphen_break s.
Proof.
  unfold re_sub. induction s as [|c s IH]; [done|].
  change (sub_aux match_hyphen_break [] 0 (c :: s)) with
    (match match_hyphen_break (c :: s) with
     | Some (S k) => [] ++ sub_aux match_hyphen_break [] k s
     | _ => c :: sub_aux match_hyphen_break [] 0 s
     end).
  destruct (match_hyphen_break (c :: s)) as [[|j]|] eqn:E; intros Hlen.
  - injection Hlen as Hlen. split; [|by apply IH]. intros j. by rewrite E.
  - pose proof (sub_aux_length match_hyphen_break [] j s) as L.
    rewrite app_nil_l in Hlen. rewrite Hlen in L. simpl in L. lia.
  - injection Hlen as Hlen. split; [|by apply IH]. intros j. by rewrite E.
Qed.

Lemma spaced_drop_app a t : spaced (a ++ t) → spaced t.
Proof. induction a as [|c a IH]; simpl; [done|]. intros [_ H]. by apply IH. Qed.

Lemma spaced_no_double_space y : spaced y → ¬ has_double_space y.
Proof.
  intros H (a & b & ->). apply spaced_drop_app in H as [H _].
  by destruct (H eq_refl).
Qed.

Lemma no_double_space_spaced y :
  (∀ c, c ∈ y → isspace c = true → c = SP) → ¬ has_double_space y → spaced y.
Proof.
  induction y as [|c y IH]; simpl; [done|]. intros Hws Hnd. split.
  - intros Hc. split; [apply Hws; [apply elem_of_cons; auto|done]|].
    destruct y as [|d y]; [done|]. simpl.
    destruct (isspace d) eqn:Ed; [|done]. destruct Hnd. exists [], y. simpl.
    rewrite (Hws c), (Hws d); rewrite ?elem_of_cons; auto.
  - apply IH.
    + intros d Hd. apply Hws, elem_of_cons. auto.
    + intros (a & b & ->). apply Hnd. by exists (c :: a), b.
Qed.

Lemma unmatched_drop_app m a t : unmatched m (a ++ t) → unmatched m t.
Proof. induction a as [|c a IH]; simpl; [done|]. intros [_ H]. by apply IH. Qed.

Lemma unmatched_hyphen_break y :
  unmatched match_hyphen_break y ↔ ¬ has_hyphen_break y.
Proof.
  split.
  - intros H (a & c & b & -> & Hc). apply unmatched_drop_app in H as [H _].
    apply (H 1%nat). simpl. by rewrite Hc.
  - induction y as [|c1 y IH]; [done|]. intros Hn. split.
    + intros j. destruct y as [|c2 [|c3 t]]; simpl; try done.
      destruct (c1 =? HYPHEN) eqn:E1; [|done].
      destruct (c2 =? SP) eqn:E2; [|done].
      destruct (is_lower_az c3) eqn:E3; [|done].
      apply N.eqb_eq in E1, E2. subst. destruct Hn. by exists [], c3, t.
    + apply IH. intros (a & c & b & -> & Hc). apply Hn.
      by exists (c1 :: a), c, b.
Qed.

(** C4: the output of the text cleaner contains no non-breaking space
    (U+00A0) and no substring of the form [<[^>]+>], whatever the input. *)
Theorem clean_text_no_nbsp_no_tag (x : text) :
  (NBSP ∉ clean_text x) ∧ ¬ contains_tag (clean_text x).
Proof.
  split.
  - unfold clean_text. intros H%strip_elem. revert H.
    by apply replace_char_absent.
  - apply tagless_no_tag, clean_text_tagless.
Qed.

Example clean_text_nested_brackets :
  clean_text (cps "x<<a>>y<>z<b") = cps "x >y<>z<b".
Proof. reflexivity. Qed.

Example clean_text_bullet :
  clean_text ([BULLET] ++ cps "item") = [226; 8364; 162] ++ cps " item".
Proof. reflexivity. Qed.

(** C2, as stated, fails: cleaning [a- - b] gives [a- b], and cleaning that
    again gives [ab]; a bullet before a space leaves two spaces, which a
    second cleaning collapses. *)
Lemma clean_text_twice_differs :
  clean_text (cps "a- - b") = cps "a- b"
  ∧ clean_text (clean_text (cps "a- - b")) = cps "ab"
  ∧ clean_text (clean_text (cps "a- - b")) ≠ clean_text (cps "a- - b")
  ∧ clean_text (clean_text [BULLET; SP; 97]) ≠ clean_text [BULLET; SP; 97].
Proof. by vm_compute. Qed.

(** C2, amended: cleaning the cleaned text of [x] again changes nothing
    exactly when the cleaned text has no two spaces in a row and no hyphen
    followed by a space and a lower-case letter. *)
Theorem clean_text_idempotent_iff (x : text) :
  clean_text (clean_text x) = clean_text x
  ↔ ¬ has_double_space (clean_text x) ∧ ¬ has_hyphen_break (clean_text x).
Proof.
  pose proof (clean_text_cleaned x) as Hc.
  rewrite (clean_text_on_cleaned _ Hc).
  destruct Hc as (Ht & Hws & Hb & Hh & Hr).
  set (y := clean_text x) in *. split.
  - intros Heq.
    pose proof (sub_aux_length match_ws [SP] 0 y) as L1.
    pose proof (sub_aux_length match_hyphen_break [] 0
                  (re_sub match_ws [SP] y)) as L2.
    pose proof (lstrip_length
                  (re_sub match_hyphen_break [] (re_sub match_ws [SP] y))) as L3.
    pose proof (rstrip_length (lstrip
                  (re_sub match_hyphen_break [] (re_sub match_ws [SP] y)))) as L4.
    apply (f_equal length) in Heq. unfold strip, re_sub in *. simpl in L1, L2.
    assert (spaced y) as Hs.
    { apply re_sub_ws_same_length; [done|]. unfold re_sub. lia. }
    split; [by apply spaced_no_double_space|].
    apply unmatched_hyphen_break, re_sub_hyphen_break_same_length.
    pose proof (re_sub_ws_spaced y Hs) as Hid. unfold re_sub in *.
    rewrite Hid in *. lia.
  - intros [Hd Hy]. apply (no_double_space_spaced y Hws) in Hd.
    apply unmatched_hyphen_break in Hy.
    rewrite re_sub_ws_spaced by done.
    rewrite (re_sub_unmatched match_hyphen_break) by done.
    unfold strip. by rewrite lstrip_id.
Qed.

(** In particular, cleaning is idempotent on every input without hyphens
    and bullets. *)
Corollary clean_text_idempotent_plain (x : text) :
  HYPHEN ∉ x → BULLET ∉ x → clean_text (clean_text x) = clean_text x.
Proof. intros Hh Hb. by apply clean_text_fixpoint, clean_text_normal. Qed.

Example clean_text_idempotent_on_markup :
  clean_text sample_markup = cps "Total 12 kg"
  ∧ clean_text (clean_text sample_markup) = clean_text sample_markup.
Proof.
  split; [reflexivity|].
  apply (clean_text_idempotent_plain sample_markup); absent.
Qed.

(** C5: two pages extracting to [A-\nfoo] and [bar] are concatenated, a
    newline after each, to [A-\nfoo\nbar\n], which cleans to [Afoo bar]. *)
Theorem two_pages_example (W : World) (p1 p2 : page W) :
  extract_text W p1 = Return (cps "A-" ++ [LF] ++ cps "foo") →
  extract_text W p2 = Return (cps "bar") →
  read_pages W [p1; p2] []
    = Return (cps "A-" ++ [LF] ++ cps "foo" ++ [LF] ++ cps "bar" ++ [LF])
  ∧ clean_text (cps "A-" ++ [LF] ++ cps "foo" ++ [LF] ++ cps "bar" ++ [LF])
    = cps "Afoo bar".
Proof.
  intros H1 H2. split; [|by vm_compute].
  simpl. rewrite H1. simpl. rewrite H2. reflexivity.
Qed.

Example two_page_file_extracts :
  extract_text_from_pdf two_page_world (cps "mri.pdf") = cps "Afoo bar".
Proof. reflexivity. Qed.

Lemma two_pages_example_witness :
  read_pages two_page_world
    [Return (cps "A-" ++ [LF] ++ cps "foo"); Return (cps "bar")] []
    = Return (cps "A-" ++ [LF] ++ cps "foo" ++ [LF] ++ cps "bar" ++ [LF])
  ∧ clean_text (cps "A-" ++ [LF] ++ cps "foo" ++ [LF] ++ cps "bar" ++ [LF])
    = cps "Afoo bar".
Proof.
  apply (two_pages_example two_page_world
           (Return (cps "A-" ++ [LF] ++ cps "foo")) (Return (cps "bar")));
    reflexivity.
Defined.

(** ** Document extraction *)

Lemma extract_text_from_pdf_failure (W : World) (path : text) (e : exn) :
  (let! file := open_rb W path in
   let! pages := PdfReader W file in
   read_pages W pages []) = Raise e →
  extract_text_from_pdf W path = cps "Error extracting text: " ++ str_exn W e.
Proof.
  unfold extract_text_from_pdf. intros H.
  destruct (open_rb W path) as [file|e1]; simpl in *; [|by injection H as ->].
  destruct (PdfReader W file) as [pages|e2]; simpl in *; [|by injection H as ->].
  by rewrite H.
Qed.

Lemma extract_text_from_pdf_success (W : World) (path raw : text) :
  (let! file := open_rb W path in
   let! pages := PdfReader W file in
   read_pages W pages []) = Return raw →
  extract_text_from_pdf W path = clean_text raw.
Proof.
  unfold extract_text_from_pdf. intros H.
  destruct (open_rb W path) as [file|e1]; simpl in *; [|done].
  destruct (PdfReader W file) as [pages|e2]; simpl in *; [|done].
  by rewrite H.
Qed.

(** The upload handler has no [try] around the same steps. *)
Lemma upload_pdf_propagates (W : World) (id : text) (st : store)
    (f : FileStorage W) (e : exn) :
  filename f ≠ [] → allowed_file W (filename f) = true →
  (let! pages := PdfReader W (file_stream f) in read_pages W pages []) = Raise e →
  upload_pdf W id st (Some f) = (Raise e, st).
Proof.
  intros Hn Ha He. unfold upload_pdf, text_eqb.
  rewrite bool_decide_eq_false_2 by done. rewrite Ha. simpl.
  by rewrite He.
Qed.

(** C1 fails on the upload path: a PDF that PyPDF2 cannot parse makes
    [upload_pdf] end in the parser's exception, with no response, while
    [extract_text_from_pdf] turns the failure it meets into an error text. *)
Theorem upload_pdf_corrupt_file_unhandled :
  upload_pdf offline_world (cps "id-2") sample_store (Some corrupt_upload)
    = (Raise (LibraryError (cps "EOF marker not found")), sample_store)
  ∧ extract_text_from_pdf offline_world (cps "scan.pdf")
    = cps "Error extracting text: No such file or directory".
Proof. split; reflexivity. Qed.

(** ** Upload *)

Lemma after_last_none sep s : after_last sep s = None ↔ sep ∉ s.
Proof.
  induction s as [|c s IH]; simpl.
  - split; [intros _; apply not_elem_of_nil|done].
  - rewrite not_elem_of_cons, <- IH.
    destruct (after_last sep s) as [e|].
    + split; [done|]. by intros [_ ?].
    + destruct (c =? sep) eqn:E.
      * apply N.eqb_eq in E. split; [done|]. by intros [? _].
      * apply N.eqb_neq in E. split; [|done]. intros _. split; [|done].
        by intros ->.
Qed.

Lemma after_last_app sep stem ext :
  sep ∉ ext → after_last sep (stem ++ sep :: ext) = Some ext.
Proof.
  intros Hne. induction stem as [|c stem IH]; simpl.
  - rewrite (proj2 (after_last_none sep ext) Hne). by rewrite N.eqb_refl.
  - by rewrite IH.
Qed.

Lemma after_last_inv sep s ext :
  after_last sep s = Some ext → ∃ stem, s = stem ++ sep :: ext ∧ sep ∉ ext.
Proof.
  revert ext. induction s as [|c s IH]; intros ext; simpl; [done|].
  destruct (after_last sep s) as [e|] eqn:E.
  - intros [= <-]. destruct (IH e eq_refl) as (stem & -> & Hne).
    by exists (c :: stem).
  - destruct (c =? sep) eqn:Ec; [|done]. intros [= <-].
    apply N.eqb_eq in Ec as ->. exists []. split; [done|].
    by apply after_last_none.
Qed.

(** What [allowed_file] accepts. *)
Lemma allowed_file_spec (W : World) (name : text) :
  allowed_file W name = true ↔ has_allowed_extension W name.
Proof.
  unfold allowed_file, has_allowed_extension. split.
  - intros [_ H]%andb_true_iff.
    destruct (after_last DOT name) as [ext|] eqn:E; [|done].
    apply after_last_inv in E as (stem & -> & Hne).
    exists stem, ext. repeat split; [done|]. by apply bool_decide_eq_true in H.
  - intros (stem & ext & -> & Hne & Hl).
    rewrite after_last_app by done.
    apply andb_true_iff. split.
    + unfold contains_char. apply existsb_exists. exists DOT. split; [|done].
      apply in_or_app. right. by left.
    + by apply bool_decide_eq_true.
Qed.

(** C9: an upload whose filename has no extension of the allow-list,
    compared in lower case, is answered with status 400 and an [error]
    field, and [uploaded_files] is unchanged. *)
Theorem upload_rejects_disallowed_extension (W : World) (fresh_id : text)
    (st : store) (f : FileStorage W) :
  ¬ has_allowed_extension W (filename f) →
  ∃ msg,
    upload_pdf W fresh_id st (Some f)
    = (Return {| status := 400; body := JObj [(cps "error", JStr msg)] |}, st).
Proof.
  intros Hno. assert (allowed_file W (filename f) = false) as Ha.
  { destruct (allowed_file W (filename f)) eqn:E; [|done].
    by apply allowed_file_spec in E. }
  unfold upload_pdf. rewrite Ha, andb_false_r.
  destruct (text_eqb (filename f) []); eauto.
Qed.

Lemma upload_rejects_disallowed_extension_witness :
  ¬ has_allowed_extension offline_world (cps "report.txt")
  ∧ ∃ msg,
      upload_pdf offline_world (cps "id-2") sample_store (Some text_upload)
      = (Return {| status := 400; body := JObj [(cps "error", JStr msg)] |},
         sample_store).
Proof.
  assert (¬ has_allowed_extension offline_world (cps "report.txt")) as Hno.
  { intros H%allowed_file_spec. vm_compute in H. discriminate H. }
  split; [exact Hno|].
  apply (upload_rejects_disallowed_extension offline_world (cps "id-2")
           sample_store text_upload).
  exact Hno.
Defined.

Example upload_text_file :
  upload_pdf offline_world (cps "id-2") sample_store (Some text_upload)
  = (Return {| status := 400;
               body := JObj [(cps "error", JStr (cps "File type not allowed"))] |},
     sample_store).
Proof. reflexivity. Qed.

Lemma upload_pdf_accepts (W : World) (id : text) (st : store)
    (f : FileStorage W) (pages : list (page W)) (raw : text) :
  filename f ≠ [] → allowed_file W (filename f) = true →
  PdfReader W (file_stream f) = Return pages →
  read_pages W pages [] = Return raw →
  upload_pdf W id st (Some f)
  = (Return (jsonify
       [(cps "file_id", JStr id);
        (cps "filename", JStr (secure_filename W (filename f)));
        (cps "text_length", JInt (Z.of_nat (length (clean_text raw))));
        (cps "text_preview", JStr (text_preview (clean_text raw)))]),
     <[id := {| sf_filename := secure_filename W (filename f);
                sf_text := clean_text raw |}]> st).
Proof.
  intros Hn Ha Hp Hr. unfold upload_pdf, text_eqb.
  rewrite bool_decide_eq_false_2 by done. rewrite Ha, Hp. simpl.
  by rewrite Hr.
Qed.

(** C7: a successful upload answers 200 with a [text_preview] that is the
    first 500 characters of the cleaned text followed by three dots when
    the cleaned text is longer than 500 characters, and the whole cleaned
    text otherwise. *)
Theorem upload_text_preview (W : World) (fresh_id : text) (st : store)
    (f : FileStorage W) (pages : list (page W)) (raw : text) :
  filename f ≠ [] → allowed_file W (filename f) = true →
  PdfReader W (file_stream f) = Return pages →
  read_pages W pages [] = Return raw →
  ∃ fields preview,
    (upload_pdf W fresh_id st (Some f)).1
      = Return {| status := 200; body := JObj fields |}
    ∧ dict_get (cps "text_preview") fields = Some (JStr preview)
    ∧ ((500 < length (clean_text raw))%nat →
       preview = take 500 (clean_text raw) ++ cps "...")
    ∧ ((length (clean_text raw) ≤ 500)%nat → preview = clean_text raw).
Proof.
  intros Hn Ha Hp Hr.
  rewrite (upload_pdf_accepts W fresh_id st f pages raw) by done.
  eexists _, (text_preview (clean_text raw)).
  split; [reflexivity|]. split; [reflexivity|].
  unfold text_preview. split; intros Hlen.
  - by rewrite (proj2 (Nat.ltb_lt _ _) Hlen).
  - by rewrite (proj2 (Nat.ltb_ge _ _) Hlen).
Qed.

Lemma upload_text_preview_witness :
  ∃ fields preview,
    (upload_pdf offline_world (cps "id-2") sample_store (Some long_upload)).1
      = Return {| status := 200; body := JObj fields |}
    ∧ dict_get (cps "text_preview") fields = Some (JStr preview)
    ∧ ((500 < length (clean_text (long_page ++ [LF])))%nat →
       preview = take 500 (clean_text (long_page ++ [LF])) ++ cps "...")
    ∧ ((length (clean_text (long_page ++ [LF])) ≤ 500)%nat →
       preview = clean_text (long_page ++ [LF])).
Proof.
  apply (upload_text_preview offline_world (cps "id-2") sample_store
           long_upload [Return long_page]
           (long_page ++ [LF])).
  - discriminate.
  - reflexivity.
  - reflexivity.
  - reflexivity.
Defined.

Example upload_long_preview :
  dict_get (cps "text_preview")
    match (upload_pdf offline_world (cps "id-2") sample_store
             (Some long_upload)).1 with
    | Return {| body := JObj fields |} => fields
    | _ => []
    end
  = Some (JStr (take 500 long_page ++ cps "...")).
Proof. by vm_compute. Qed.

Example upload_short_preview :
  upload_pdf offline_world (cps "id-2") sample_store (Some short_upload)
  = (Return (jsonify
       [(cps "file_id", JStr (cps "id-2"));
        (cps "filename", JStr (cps "Note.PDF"));
        (cps "text_length", JInt 21);
        (cps "text_preview", JStr (cps "blood pressure normal"))]),
     <[cps "id-2" := {| sf_filename := cps "Note.PDF";
                        sf_text := cps "blood pressure normal" |}]>
       sample_store).
Proof. reflexivity. Qed.

(** ** The completion call *)

Lemma raise_for_status_error (r : http_response) :
  (400 ≤ status_code r < 600)%nat →
  raise_for_status r = Raise (HTTPError (status_code r)).
Proof.
  intros [H1 H2]. unfold raise_for_status.
  by rewrite (proj2 (Nat.leb_le _ _) H1), (proj2 (Nat.ltb_lt _ _) H2).
Qed.

Lemma raise_for_status_ok (r : http_response) :
  ¬ (400 ≤ status_code r < 600)%nat → raise_for_status r = Return tt.
Proof.
  intros H. unfold raise_for_status.
  destruct (Nat.leb_spec 400 (status_code r)); [|done].
  destruct (Nat.ltb_spec (status_code r) 600); [|done].
  destruct H. lia.
Qed.

(** The [try] body raises exactly when the remote call fails. *)
Lemma fetch_answer_raises (W : World) (req : http_request) (e : exn) :
  fetch_answer W req = Raise e ↔ remote_failure W req e.
Proof.
  unfold fetch_answer. split.
  - destruct (requests_post W req) as [r|e'] eqn:Ep; simpl.
    + destruct (decide (400 ≤ status_code r < 600)%nat) as [Hs|Hs].
      * rewrite raise_for_status_error by done. simpl. intros [= <-].
        by eapply error_status.
      * rewrite raise_for_status_ok by done. simpl. intros H.
        by eapply unexpected_shape.
    + intros [= <-]. by apply transport_error.
  - intros [e' H|r H Hs|r e' H Hs Hj]; rewrite H; simpl.
    + done.
    + by rewrite raise_for_status_error.
    + by rewrite raise_for_status_ok.
Qed.

Lemma ai_response_of_failure (W : World) (req : http_request) (e : exn) :
  remote_failure W req e →
  ai_response_of W req = JStr (AI_ERROR_PREFIX ++ str_exn W e).
Proof.
  intros H%fetch_answer_raises. unfold ai_response_of. by rewrite H.
Qed.

(** ** Query *)

Lemma query_pdf_known (W : World) (st : store) (file_id prompt : text)
    (doc : stored_file) :
  st !! file_id = Some doc → sf_text doc ≠ [] →
  let req :=
    chat_request W HTTP_SYSTEM_PROMPT (prompt_text (sf_text doc) prompt) in
  query_pdf W st (Some {| q_file_id := Some file_id; q_prompt := Some prompt |})
  = (jsonify [(cps "file_id", JStr file_id);
              (cps "prompt", JStr prompt);
              (cps "response", ai_response_of W req)],
     [req]).
Proof.
  intros Hdoc Hne. unfold query_pdf. rewrite Hdoc.
  change (sf_text <$> Some doc) with (Some (sf_text doc)).
  by destruct (sf_text doc).
Qed.

Lemma first_choice_content_inv (result v : json) :
  first_choice_content result = Return v → has_content result v.
Proof.
  unfold first_choice_content.
  destruct result as [| | | | |items|fields]; try done. simpl.
  destruct (dict_get (cps "choices") fields) as [choices|] eqn:Ec; [|done].
  simpl. destruct choices as [| | | |s|items|fs]; try done; simpl.
  - by destruct (s !! 0%nat).
  - destruct items as [|first rest]; [done|]. simpl.
    destruct first as [| | | | |items'|choice]; try done. simpl.
    destruct (dict_get (cps "message") choice) as [msg|] eqn:Em; [|done].
    simpl. destruct msg as [| | | | |items'|msg]; try done. simpl.
    destruct (dict_get (cps "content") msg) as [x|] eqn:Ex; [|done].
    intros [= <-]. by exists fields, rest, choice, msg.
Qed.

(** A failing completion call makes the [try] body raise. *)
Lemma completion_fails_raises (W : World) (req : http_request) :
  completion_fails W req → ∃ e, fetch_answer W req = Raise e.
Proof.
  unfold fetch_answer.
  intros [e H|r H Hs|r e H Hj|r result H Hj Hshape]; rewrite H; simpl.
  - eauto.
  - rewrite raise_for_status_error by done. eauto.
  - destruct (decide (400 ≤ status_code r < 600)%nat) as [Hs|Hs].
    + rewrite raise_for_status_error by done. eauto.
    + rewrite raise_for_status_ok by done. simpl. rewrite Hj. eauto.
  - destruct (decide (400 ≤ status_code r < 600)%nat) as [Hs|Hs].
    + rewrite raise_for_status_error by done. eauto.
    + rewrite raise_for_status_ok by done. simpl. rewrite Hj. simpl.
      destruct (first_choice_content result) as [v|e] eqn:Ev; [|eauto].
      destruct (Hshape v). by apply first_choice_content_inv.
Qed.

(** C8, as stated, fails: a reply whose status is 302, not a success
    status, with a body of the expected shape is not treated as a failure;
    its content is relayed as the answer. *)
Lemma query_relays_non_success_reply :
  requests_post redirecting_world
    (chat_request redirecting_world HTTP_SYSTEM_PROMPT
       (prompt_text (cps "No mass lesion.") (cps "Is it benign?")))
    = Return found_reply
  ∧ status_code found_reply = 302%nat
  ∧ ¬ (200 ≤ status_code found_reply < 300)%nat
  ∧ (query_pdf redirecting_world sample_store
       (Some {| q_file_id := Some (cps "id-1");
                q_prompt := Some (cps "Is it benign?") |})).1
    = {| status := 200;
         body := JObj [(cps "file_id", JStr (cps "id-1"));
                       (cps "prompt", JStr (cps "Is it benign?"));
                       (cps "response", JStr (cps "ok"))] |}
  ∧ is_prefix (cps "Error") (cps "ok") = false.
Proof.
  split; [reflexivity|]. split; [reflexivity|]. split; [simpl; lia|].
  split; reflexivity.
Qed.

(** C8, amended: on a known [file_id] with non-empty stored text the
    answer has status 200 whatever the remote endpoint does, and when the
    completion call fails (the transport raises, the status is from 400
    to 599, the body does not decode, or the decoded body holds no
    [choices[0].message.content]) the [response] field is the error
    prefix followed by the message of an exception: the transport's own
    when it raised, the status error when the status is from 400 to
    599. *)
Theorem query_remote_failure_in_band (W : World) (st : store)
    (file_id prompt : text) (doc : stored_file) :
  st !! file_id = Some doc → sf_text doc ≠ [] →
  let answer :=
    (query_pdf W st
       (Some {| q_file_id := Some file_id; q_prompt := Some prompt |})).1 in
  let req :=
    chat_request W HTTP_SYSTEM_PROMPT (prompt_text (sf_text doc) prompt) in
  status answer = 200%nat
  ∧ (completion_fails W req →
     ∃ e,
       body answer
       = JObj [(cps "file_id", JStr file_id);
               (cps "prompt", JStr prompt);
               (cps "response",
                JStr (cps "Error getting AI response: " ++ str_exn W e))]
       ∧ (∀ e0, requests_post W req = Raise e0 → e = e0)
       ∧ (∀ response,
            requests_post W req = Return response →
            (400 ≤ status_code response < 600)%nat →
            e = HTTPError (status_code response))).
Proof.
  intros Hdoc Hne answer req. subst answer.
  rewrite (query_pdf_known W st file_id prompt doc) by done.
  fold req. split; [reflexivity|]. intros [e He]%completion_fails_raises.
  exists e. split; [simpl; unfold ai_response_of; by rewrite He|].
  unfold fetch_answer in He. split.
  - intros e0 H0. rewrite H0 in He. by injection He.
  - intros r Hr Hs. rewrite Hr in He. simpl in He.
    rewrite raise_for_status_error in He by done. by injection He.
Qed.

Lemma query_remote_failure_in_band_witness :
  let answer :=
    (query_pdf shapeless_world sample_store
       (Some {| q_file_id := Some (cps "id-1");
                q_prompt := Some (cps "Is it benign?") |})).1 in
  status answer = 200%nat
  ∧ ∃ e,
      body answer
      = JObj [(cps "file_id", JStr (cps "id-1"));
              (cps "prompt", JStr (cps "Is it benign?"));
              (cps "response",
               JStr (cps "Error getting AI response: "
                     ++ str_exn shapeless_world e))].
Proof.
  cut (completion_fails shapeless_world
         (chat_request shapeless_world HTTP_SYSTEM_PROMPT
            (prompt_text (cps "No mass lesion.") (cps "Is it benign?")))).
  { intros Hfail.
  destruct (query_remote_failure_in_band shapeless_world sample_store
              (cps "id-1") (cps "Is it benign?")
              {| sf_filename := cps "mri.pdf"; sf_text := cps "No mass lesion." |})
    as [Hs Hb].
    - reflexivity.
    - discriminate.
    - split; [exact Hs|]. destruct (Hb Hfail) as (e & He & _). by exists e. }
  apply (fails_shape _ _ empty_reply (JObj [])); [reflexivity|reflexivity|].
  intros v (fields & rest & choice & msg & [= <-] & Hc & _). discriminate Hc.
Defined.

Example empty_reply_reported :
  (query_pdf shapeless_world sample_store
     (Some {| q_file_id := Some (cps "id-1");
              q_prompt := Some (cps "Is it benign?") |})).1
  = {| status := 200;
       body := JObj [(cps "file_id", JStr (cps "id-1"));
                     (cps "prompt", JStr (cps "Is it benign?"));
                     (cps "response",
                      JStr (cps "Error getting AI response: 'choices'"))] |}.
Proof. reflexivity. Qed.

(** ** Command line *)

Lemma run_cli_mode_cli (W : World) (prog path : text) (words : list text) :
  words ≠ [] →
  run_cli_mode W (prog :: cps "--cli" :: path :: words)
  = let extracted_text := extract_text_from_pdf W path in
    let line1 := JStr (cps "Processing PDF: " ++ path) in
    if is_prefix (cps "Error") extracted_text then
      {| printed := [line1; JStr extracted_text];
         sent := [];
         exit_status := Some 1%nat |}
    else
      let req :=
        chat_request W CLI_SYSTEM_PROMPT
          (prompt_text extracted_text (join [SP] words)) in
      {| printed := [line1;
                     JStr ([LF] ++ cps "Getting AI response...");
                     JStr ([LF] ++ cps "AI Response:");
                     ai_response_of W req];
         sent := [req];
         exit_status := Some 0%nat |}.
Proof.
  intros Hw. destruct words as [|w ws]; [done|]. reflexivity.
Qed.

Lemma error_text_has_prefix (msg : text) :
  is_prefix (cps "Error") (cps "Error extracting text: " ++ msg) = true.
Proof. reflexivity. Qed.

(** A failed extraction is printed and ends the run with status 1. *)
Lemma run_cli_mode_extraction_failure (W : World) (prog path : text)
    (words : list text) (e : exn) :
  words ≠ [] →
  (let! file := open_rb W path in
   let! pages := PdfReader W file in
   read_pages W pages []) = Raise e →
  run_cli_mode W (prog :: cps "--cli" :: path :: words)
  = {| printed := [JStr (cps "Processing PDF: " ++ path);
                   JStr (cps "Error extracting text: " ++ str_exn W e)];
       sent := [];
       exit_status := Some 1%nat |}.
Proof.
  intros Hw He. rewrite run_cli_mode_cli by done. cbv zeta.
  rewrite (extract_text_from_pdf_failure W path e) by done.
  by rewrite error_text_has_prefix.
Qed.

(** A successful extraction whose text does not begin with [Error] is
    followed by one completion request and exit status 0. *)
Lemma run_cli_mode_answers (W : World) (prog path : text)
    (words : list text) :
  words ≠ [] →
  is_prefix (cps "Error") (extract_text_from_pdf W path) = false →
  let req :=
    chat_request W CLI_SYSTEM_PROMPT
      (prompt_text (extract_text_from_pdf W path) (join [SP] words)) in
  run_cli_mode W (prog :: cps "--cli" :: path :: words)
  = {| printed := [JStr (cps "Processing PDF: " ++ path);
                   JStr ([LF] ++ cps "Getting AI response...");
                   JStr ([LF] ++ cps "AI Response:");
                   ai_response_of W req];
       sent := [req];
       exit_status := Some 0%nat |}.
Proof.
  intros Hw Hp. rewrite run_cli_mode_cli by done. cbv zeta. by rewrite Hp.
Qed.

(** C3 fails on a readable document whose text begins with the word
    Error: extraction succeeds, yet the run prints the text, sends nothing
    to the completion endpoint and exits with status 1. *)
Theorem run_cli_mode_error_titled_document :
  (let! file := open_rb error_log_world (cps "log.pdf") in
   let! pages := PdfReader error_log_world file in
   read_pages error_log_world pages [])
    = Return (cps "Error log of the MRI scanner" ++ [LF])
  ∧ run_cli_mode error_log_world
      [cps "app.py"; cps "--cli"; cps "log.pdf"; cps "What"; cps "failed?"]
    = {| printed := [JStr (cps "Processing PDF: log.pdf");
                     JStr (cps "Error log of the MRI scanner")];
         sent := [];
         exit_status := Some 1%nat |}.
Proof. split; reflexivity. Qed.

(** ** The prompt sent to the completion endpoint *)

Lemma take_first_4000 (context : text) :
  first_4000_of (take 4000 context) context.
Proof.
  split; [exists (drop 4000 context); by rewrite take_drop|].
  rewrite length_take. split; [apply Nat.le_min_l|]. split.
  - intros H. apply Nat.min_l. by apply Nat.lt_le_incl.
  - apply take_ge.
Qed.

Lemma prompt_text_framed (context question : text) :
  prompt_text context question = framed (take 4000 context) question.
Proof. reflexivity. Qed.

Lemma user_prompts_chat_request (W : World) (system user : text) :
  user_prompts [chat_request W system user] = [user].
Proof. reflexivity. Qed.

Lemma query_pdf_user_prompt (W : World) (st : store) (file_id prompt : text)
    (doc : stored_file) :
  st !! file_id = Some doc → sf_text doc ≠ [] →
  user_prompts
    (query_pdf W st
       (Some {| q_file_id := Some file_id; q_prompt := Some prompt |})).2
  = [framed (take 4000 (sf_text doc)) prompt].
Proof.
  intros Hdoc Hne. by rewrite (query_pdf_known W st file_id prompt doc).
Qed.

Lemma run_cli_mode_user_prompt (W : World) (prog path : text)
    (words : list text) :
  words ≠ [] →
  is_prefix (cps "Error") (extract_text_from_pdf W path) = false →
  user_prompts (sent (run_cli_mode W (prog :: cps "--cli" :: path :: words)))
  = [framed (take 4000 (extract_text_from_pdf W path)) (join [SP] words)].
Proof.
  intros Hw Hp. by rewrite (run_cli_mode_answers W prog path words).
Qed.

(** C6: at both call sites the user message embeds, as the excerpt, the
    first 4000 characters of the context text: at most 4000 characters,
    and exactly 4000 when the context is longer. *)
Theorem context_excerpt_first_4000 (W : World) :
  (∀ (st : store) (file_id prompt : text) (doc : stored_file),
     st !! file_id = Some doc → sf_text doc ≠ [] →
     ∃ excerpt,
       first_4000_of excerpt (sf_text doc)
       ∧ user_prompts
           (query_pdf W st
              (Some {| q_file_id := Some file_id; q_prompt := Some prompt |})).2
         = [framed excerpt prompt])
  ∧ (∀ (prog path : text) (words : list text),
       words ≠ [] →
       is_prefix (cps "Error") (extract_text_from_pdf W path) = false →
       ∃ excerpt,
         first_4000_of excerpt (extract_text_from_pdf W path)
         ∧ user_prompts
             (sent (run_cli_mode W (prog :: cps "--cli" :: path :: words)))
           = [framed excerpt (join [SP] words)]).
Proof.
  split.
  - intros st file_id prompt doc Hdoc Hne. eexists.
    split; [apply take_first_4000|]. by apply query_pdf_user_prompt.
  - intros prog path words Hw Hp. eexists.
    split; [apply take_first_4000|]. by apply run_cli_mode_user_prompt.
Qed.

Lemma context_excerpt_first_4000_witness :
  (∃ excerpt,
     first_4000_of excerpt long_report
     ∧ user_prompts
         (query_pdf offline_world long_store
            (Some {| q_file_id := Some (cps "id-9");
                     q_prompt := Some (cps "Is it benign?") |})).2
       = [framed excerpt (cps "Is it benign?")])
  ∧ (∃ excerpt,
       first_4000_of excerpt (extract_text_from_pdf two_page_world (cps "mri.pdf"))
       ∧ user_prompts
           (sent (run_cli_mode two_page_world
                    [cps "app.py"; cps "--cli"; cps "mri.pdf";
                     cps "Explain"; cps "this"]))
         = [framed excerpt (cps "Explain this")]).
Proof.
  split.
  - apply (proj1 (context_excerpt_first_4000 offline_world) long_store
             (cps "id-9") (cps "Is it benign?")
             {| sf_filename := cps "ct.pdf"; sf_text := long_report |}).
    + reflexivity.
    + discriminate.
  - apply (proj2 (context_excerpt_first_4000 two_page_world) (cps "app.py")
             (cps "mri.pdf") [cps "Explain"; cps "this"]).
    + discriminate.
    + reflexivity.
Defined.

(** C10: at both call sites the three characters [...] directly follow
    the excerpt in the user prompt, also when the context has at most 4000
    characters and the excerpt is the whole of it. *)
Theorem prompt_ellipsis_unconditional (W : World) :
  (∀ (st : store) (file_id prompt : text) (doc : stored_file),
     st !! file_id = Some doc → sf_text doc ≠ [] →
     ∃ excerpt,
       excerpt = take 4000 (sf_text doc)
       ∧ ((length (sf_text doc) ≤ 4000)%nat → excerpt = sf_text doc)
       ∧ user_prompts
           (query_pdf W st
              (Some {| q_file_id := Some file_id; q_prompt := Some prompt |})).2
         = [PROMPT_PREAMBLE ++ excerpt ++ cps "..."
            ++ PROMPT_CONNECTIVE ++ prompt])
  ∧ (∀ (prog path : text) (words : list text),
       words ≠ [] →
       is_prefix (cps "Error") (extract_text_from_pdf W path) = false →
       ∃ excerpt,
         excerpt = take 4000 (extract_text_from_pdf W path)
         ∧ ((length (extract_text_from_pdf W path) ≤ 4000)%nat →
            excerpt = extract_text_from_pdf W path)
         ∧ user_prompts
             (sent (run_cli_mode W (prog :: cps "--cli" :: path :: words)))
           = [PROMPT_PREAMBLE ++ excerpt ++ cps "..."
              ++ PROMPT_CONNECTIVE ++ join [SP] words]).
Proof.
  split.
  - intros st file_id prompt doc Hdoc Hne. eexists.
    split; [reflexivity|]. split; [apply take_ge|].
    by apply query_pdf_user_prompt.
  - intros prog path words Hw Hp. eexists.
    split; [reflexivity|]. split; [apply take_ge|].
    by apply run_cli_mode_user_prompt.
Qed.

Lemma prompt_ellipsis_unconditional_witness :
  (∃ excerpt,
     excerpt = take 4000 (cps "No mass lesion.")
     ∧ ((length (cps "No mass lesion.") ≤ 4000)%nat →
        excerpt = cps "No mass lesion.")
     ∧ user_prompts
         (query_pdf offline_world sample_store
            (Some {| q_file_id := Some (cps "id-1");
                     q_prompt := Some (cps "Is it benign?") |})).2
       = [PROMPT_PREAMBLE ++ excerpt ++ cps "..."
          ++ PROMPT_CONNECTIVE ++ cps "Is it benign?"])
  ∧ (∃ excerpt,
       excerpt = take 4000 (extract_text_from_pdf two_page_world (cps "mri.pdf"))
       ∧ ((length (extract_text_from_pdf two_page_world (cps "mri.pdf")) ≤ 4000)%nat →
          excerpt = extract_text_from_pdf two_page_world (cps "mri.pdf"))
       ∧ user_prompts
           (sent (run_cli_mode two_page_world
                    [cps "app.py"; cps "--cli"; cps "mri.pdf";
                     cps "Explain"; cps "this"]))
         = [PROMPT_PREAMBLE ++ excerpt ++ cps "..."
            ++ PROMPT_CONNECTIVE ++ cps "Explain this"]).
Proof.
  split.
  - apply (proj1 (prompt_ellipsis_unconditional offline_world) sample_store
             (cps "id-1") (cps "Is it benign?")
             {| sf_filename := cps "mri.pdf"; sf_text := cps "No mass lesion." |}).
    + reflexivity.
    + discriminate.
  - apply (proj2 (prompt_ellipsis_unconditional two_page_world) (cps "app.py")
             (cps "mri.pdf") [cps "Explain"; cps "this"]).
    + discriminate.
    + reflexivity.
Defined.

Example short_context_prompt :
  user_prompts
    (query_pdf offline_world sample_store
       (Some {| q_file_id := Some (cps "id-1");
                q_prompt := Some (cps "Is it benign?") |})).2
  = [cps "I'm analyzing a document with the following content:" ++ [LF; LF]
     ++ cps "No mass lesion...." ++ [LF; LF]
     ++ cps "Based on this document, please answer: Is it benign?"].
Proof. reflexivity. Qed.

(** * Further properties *)

(** ** The text cleaner, continued *)

Lemma rstrip_fixed_last s c :
  rstrip s = s → last s = Some c → isspace c = false.
Proof.
  induction s as [|a s IH]; [done|]. destruct s as [|d s'].
  - simpl. destruct (isspace a) eqn:E; [done|]. by intros _ [= <-].
  - remember (d :: s') as t eqn:Et. simpl. intros H Hl.
    assert (last (a :: t) = last t) as Hlast by (by rewrite Et).
    rewrite Hlast in Hl. apply IH; [|done].
    destruct (rstrip t) as [|r0 r].
    + rewrite Et in H. by destruct (isspace a).
    + by injection H.
Qed.

(** X1: in every output of [clean_text] the only white-space character is
    U+0020, and the output neither starts nor ends with white space. *)
Theorem clean_text_white_space (x : text) :
  (∀ c, c ∈ clean_text x → isspace c = true → c = SP)
  ∧ (∀ c, head (clean_text x) = Some c → isspace c = false)
  ∧ (∀ c, last (clean_text x) = Some c → isspace c = false).
Proof.
  destruct (clean_text_cleaned x) as (_ & Hws & _ & Hh & Hr).
  split; [done|]. split.
  - intros c Hc. destruct (clean_text x) as [|d y]; [done|].
    injection Hc as ->. done.
  - intros c. by apply rstrip_fixed_last.
Qed.

Lemma lstrip_all_space s : (∀ c, c ∈ s → isspace c = true) → lstrip s = [].
Proof.
  induction s as [|c s IH]; simpl; [done|]. intros H.
  rewrite H by (apply elem_of_cons; auto).
  apply IH. intros d Hd. apply H, elem_of_cons. auto.
Qed.

Lemma clean_text_all_space (x : text) :
  (∀ c, c ∈ x → isspace c = true) → clean_text x = [].
Proof.
  intros Hx.
  assert (∀ c, c ∈ collapsed x → isspace c = true) as H3.
  { unfold collapsed, replace. intros c Hc.
    apply re_sub_elem in Hc as [Hc|Hc];
      [|by apply list_elem_of_singleton in Hc as ->].
    apply re_sub_elem in Hc as [Hc|Hc];
      [|by apply list_elem_of_singleton in Hc as ->].
    apply re_sub_elem in Hc as [Hc|Hc];
      [by apply Hx|by apply list_elem_of_singleton in Hc as ->]. }
  assert (∀ c, c ∈ re_sub match_hyphen_break [] (collapsed x) →
               isspace c = true) as H4.
  { intros c [Hc|Hc]%re_sub_elem; [by apply H3|by apply elem_of_nil in Hc]. }
  unfold clean_text. cbv zeta. fold (collapsed x).
  rewrite (replace_without BULLET).
  - unfold strip. rewrite lstrip_all_space; [done|].
    unfold replace. intros c [Hc|Hc]%re_sub_elem; [by apply H4|].
    by apply list_elem_of_singleton in Hc as ->.
  - intros Hin. by apply H4 in Hin.
Qed.

(** X3: a text of white space only, the empty text included, is cleaned
    to the empty text. *)
Theorem clean_text_blank (x : text) :
  (∀ c, c ∈ x → isspace c = true) → clean_text x = [].
Proof. apply clean_text_all_space. Qed.

Lemma clean_text_blank_witness :
  (∀ c, c ∈ [SP; LF; 9; NBSP; LF; LF] → isspace c = true)
  ∧ clean_text [SP; LF; 9; NBSP; LF; LF] = [].
Proof.
  assert (∀ c, c ∈ [SP; LF; 9; NBSP; LF; LF] → isspace c = true) as H.
  { intros c Hc. repeat (apply elem_of_cons in Hc as [->|Hc]; [reflexivity|]).
    by apply elem_of_nil in Hc. }
  split; [exact H|]. apply (clean_text_blank [SP; LF; 9; NBSP; LF; LF]). exact H.
Defined.

(** X4: on a text without bullets [clean_text] never returns more
    characters than it was given. *)
Theorem clean_text_length (x : text) :
  BULLET ∉ x → (length (clean_text x) ≤ length x)%nat.
Proof.
  intros Hb. unfold clean_text. cbv zeta. fold (collapsed x).
  rewrite (replace_without BULLET).
  - pose proof (sub_aux_length match_tag [SP] 0 x) as L1.
    pose proof (sub_aux_length (match_lit [LF; LF]) [LF] 0
                  (re_sub match_tag [SP] x)) as L2.
    pose proof (sub_aux_length match_ws [SP] 0
                  (replace [LF; LF] [LF] (re_sub match_tag [SP] x))) as L3.
    pose proof (sub_aux_length match_hyphen_break [] 0 (collapsed x)) as L4.
    pose proof (sub_aux_length (match_lit [NBSP]) [SP] 0
                  (re_sub match_hyphen_break [] (collapsed x))) as L6.
    pose proof (lstrip_length
                  (replace [NBSP] [SP]
                     (re_sub match_hyphen_break [] (collapsed x)))) as L7.
    pose proof (rstrip_length (lstrip
                  (replace [NBSP] [SP]
                     (re_sub match_hyphen_break [] (collapsed x))))) as L8.
    unfold strip, collapsed, replace, re_sub in *. simpl length in *. lia.
  - intros [Hin|Hin]%re_sub_elem; [|by apply elem_of_nil in Hin].
    revert Hin. by apply collapsed_elem.
Qed.

Lemma clean_text_length_witness :
  (BULLET ∉ sample_markup)
  ∧ (length (clean_text sample_markup) ≤ length sample_markup)%nat.
Proof.
  split; [absent|]. apply (clean_text_length sample_markup). absent.
Defined.

(** *** Words and hyphen breaks *)

Section Plain.
Context (m : matcher) (r : text) (p : N → bool).
Hypothesis m_head : ∀ s j, m s = Some (S j) → ∃ c s', s = c :: s' ∧ p c = true.

Lemma sub_aux_app_plain u t :
  Forall (fun c => p c = false) u →
  sub_aux m r 0 (u ++ t) = u ++ sub_aux m r 0 t.
Proof.
  induction 1 as [|c u Hc Hu IH]; simpl; [done|].
  destruct (m (c :: u ++ t)) as [[|j]|] eqn:E; rewrite ?IH; try done.
  destruct (m_head _ _ E) as (d & s' & [= <- _] & Hp). congruence.
Qed.

Lemma sub_aux_plain t :
  Forall (fun c => p c = false) t → sub_aux m r 0 t = t.
Proof.
  intros H. rewrite <- (app_nil_r t) at 1. rewrite sub_aux_app_plain by done.
  simpl. apply app_nil_r.
Qed.

Lemma re_sub_plain t : Forall (fun c => p c = false) t → re_sub m r t = t.
Proof. apply sub_aux_plain. Qed.

Lemma sub_aux_keep c s :
  p c = false → sub_aux m r 0 (c :: s) = c :: sub_aux m r 0 s.
Proof. intros Hc. by apply (sub_aux_app_plain [c] s), Forall_singleton. Qed.
End Plain.

Lemma match_tag_starts s j :
  match_tag s = Some (S j) → ∃ c s', s = c :: s' ∧ (c =? LT) = true.
Proof.
  destruct s as [|c s]; [done|]. intros ->%match_tag_head. by exists LT, s.
Qed.

Lemma match_ws_starts s j :
  match_ws s = Some (S j) → ∃ c s', s = c :: s' ∧ isspace c = true.
Proof.
  destruct s as [|c s]; [done|]. unfold match_ws. simpl.
  destruct (isspace c) eqn:E; [|done]. intros _. by exists c, s.
Qed.

Lemma match_hyphen_break_starts s j :
  match_hyphen_break s = Some (S j) →
  ∃ c s', s = c :: s' ∧ (c =? HYPHEN) = true.
Proof.
  destruct s as [|c1 [|c2 [|c3 t]]]; simpl; try done.
  destruct (c1 =? HYPHEN) eqn:E; [|done]. intros _. by exists c1, (c2 :: c3 :: t).
Qed.

Lemma match_lit_starts a old s j :
  match_lit (a :: old) s = Some (S j) → ∃ c s', s = c :: s' ∧ (c =? a) = true.
Proof.
  unfold match_lit. destruct (is_prefix (a :: old) s) eqn:E; [|done].
  destruct (is_prefix_head _ _ _ E) as [s' ->]. intros _.
  exists a, s'. by rewrite N.eqb_refl.
Qed.

Lemma word_char_spec c :
  word_char c = true →
  isspace c = false ∧ (c =? LT) = false ∧ (c =? HYPHEN) = false
  ∧ (c =? BULLET) = false ∧ (c =? LF) = false ∧ (c =? NBSP) = false.
Proof.
  unfold word_char. rewrite !andb_true_iff, !negb_true_iff.
  intros [[[Hs ?] ?] ?]. repeat split; try done.
  - apply N.eqb_neq. intros ->. done.
  - apply N.eqb_neq. intros ->. done.
Qed.

Lemma rstrip_no_space t :
  Forall (fun c => isspace c = false) t → rstrip t = t.
Proof.
  induction 1 as [|c t Hc Ht IH]; simpl; [done|]. rewrite IH.
  destruct t; [by rewrite Hc|done].
Qed.

Lemma rstrip_app_fixed s t : t ≠ [] → rstrip t = t → rstrip (s ++ t) = s ++ t.
Proof.
  intros Hne Ht. induction s as [|a s IH]; simpl; [done|]. rewrite IH.
  destruct (s ++ t) eqn:E; [|done]. by apply app_eq_nil in E as [_ ?].
Qed.

Lemma head_space_app u t :
  Forall (fun c => isspace c = false) u → head_space t = false →
  head_space (u ++ t) = false.
Proof. by destruct 1. Qed.

Ltac word_chars :=
  repeat first
    [ apply Forall_app; split
    | apply Forall_cons; split; [try done|]
    | apply Forall_nil; exact I
    | eapply Forall_impl; [eassumption|];
      let d := fresh in let Hd := fresh in
      intros d Hd; apply word_char_spec in Hd; tauto ].

(** X5: a word broken by a hyphen and one white-space character, such as
    a line end, is joined when the next character is a lower-case letter;
    otherwise the hyphen stays, followed by one space. *)
Theorem clean_text_hyphen_break (u v : text) (w c : N) :
  Forall (fun d => word_char d = true) u → isspace w = true →
  word_char c = true → Forall (fun d => word_char d = true) v →
  clean_text (u ++ [HYPHEN; w] ++ c :: v)
  = if is_lower_az c then u ++ c :: v else u ++ [HYPHEN; SP] ++ c :: v.
Proof.
  intros Hu Hw Hc Hv.
  destruct (word_char_spec c Hc) as (Hcs & Hcl & Hch & Hcb & Hcn & Hca).
  assert (Forall (fun d => word_char d = true) (c :: v)) as Hcv by by constructor.
  assert ((w =? LT) = false) as Hwl by (apply N.eqb_neq; by intros ->).
  assert ((w =? HYPHEN) = false) as Hwh by (apply N.eqb_neq; by intros ->).
  assert ((w =? BULLET) = false) as Hwb by (apply N.eqb_neq; by intros ->).
  unfold clean_text. cbv zeta. simpl app.
  (* tags *)
  rewrite (re_sub_plain match_tag [SP] (fun d => d =? LT) match_tag_starts)
    by word_chars.
  (* double newlines *)
  unfold replace at 3. unfold re_sub at 3.
  rewrite (sub_aux_app_plain _ _ (fun d => d =? LF) (match_lit_starts LF [LF]))
    by word_chars.
  rewrite (sub_aux_keep _ _ (fun d => d =? LF) (match_lit_starts LF [LF]))
    by done.
  assert (sub_aux (match_lit [LF; LF]) [LF] 0 (w :: c :: v) = w :: c :: v) as ->.
  { change (sub_aux (match_lit [LF; LF]) [LF] 0 (w :: c :: v)) with
      (match match_lit [LF; LF] (w :: c :: v) with
       | Some (S k) => [LF] ++ sub_aux (match_lit [LF; LF]) [LF] k (c :: v)
       | _ => w :: sub_aux (match_lit [LF; LF]) [LF] 0 (c :: v)
       end).
    assert (match_lit [LF; LF] (w :: c :: v) = None) as ->.
    { unfold match_lit.
      change (is_prefix [LF; LF] (w :: c :: v))
        with ((LF =? w) && ((LF =? c) && true)).
      by rewrite (N.eqb_sym LF c), Hcn, andb_false_r. }
    f_equal.
    apply (sub_aux_plain _ _ (fun d => d =? LF) (match_lit_starts LF [LF])).
    word_chars. }
  (* white space *)
  unfold re_sub at 2.
  rewrite (sub_aux_app_plain _ _ isspace match_ws_starts) by word_chars.
  rewrite (sub_aux_keep _ _ isspace match_ws_starts) by done.
  assert (sub_aux match_ws [SP] 0 (w :: c :: v) = SP :: c :: v) as ->.
  { change (sub_aux match_ws [SP] 0 (w :: c :: v)) with
      (match match_ws (w :: c :: v) with
       | Some (S k) => [SP] ++ sub_aux match_ws [SP] k (c :: v)
       | _ => w :: sub_aux match_ws [SP] 0 (c :: v)
       end).
    assert (match_ws (w :: c :: v) = Some 1%nat) as ->.
    { unfold match_ws. simpl span_len. by rewrite Hw, Hcs. }
    rewrite (sub_aux_plain _ _ isspace match_ws_starts) by word_chars.
    done. }
  (* the hyphen break *)
  assert (re_sub match_hyphen_break [] (u ++ HYPHEN :: SP :: c :: v)
          = if is_lower_az c then u ++ c :: v
            else u ++ HYPHEN :: SP :: c :: v) as ->.
  { unfold re_sub.
    rewrite (sub_aux_app_plain _ _ (fun d => d =? HYPHEN)
               match_hyphen_break_starts) by word_chars.
    assert (sub_aux match_hyphen_break [] 0 (c :: v) = c :: v) as Hrest.
    { apply (sub_aux_plain _ _ (fun d => d =? HYPHEN)
               match_hyphen_break_starts).
      word_chars. }
    change (sub_aux match_hyphen_break [] 0 (HYPHEN :: SP :: c :: v)) with
      (match match_hyphen_break (HYPHEN :: SP :: c :: v) with
       | Some (S k) => [] ++ sub_aux match_hyphen_break [] k (SP :: c :: v)
       | _ => HYPHEN :: sub_aux match_hyphen_break [] 0 (SP :: c :: v)
       end).
    change (match_hyphen_break (HYPHEN :: SP :: c :: v))
      with (if is_lower_az c then Some 2%nat else None).
    destruct (is_lower_az c).
    - change (sub_aux match_hyphen_break [] 1 (SP :: c :: v)) with
        (sub_aux match_hyphen_break [] 0 (c :: v)).
      by rewrite Hrest.
    - rewrite (sub_aux_keep _ _ (fun d => d =? HYPHEN)
                 match_hyphen_break_starts) by done.
      by rewrite Hrest. }
  (* bullets, non-breaking spaces, ends *)
  assert (Forall (fun d => isspace d = false) (c :: v)) as Hns
    by word_chars.
  unfold replace. destruct (is_lower_az c).
  - rewrite (re_sub_plain _ _ (fun d => d =? BULLET)
               (match_lit_starts BULLET [])) by word_chars.
    rewrite (re_sub_plain _ _ (fun d => d =? NBSP)
               (match_lit_starts NBSP [])) by word_chars.
    unfold strip. rewrite lstrip_id.
    + apply rstrip_app_fixed; [done|by apply rstrip_no_space].
    + apply head_space_app; [word_chars|]. simpl. done.
  - rewrite (re_sub_plain _ _ (fun d => d =? BULLET)
               (match_lit_starts BULLET [])) by word_chars.
    rewrite (re_sub_plain _ _ (fun d => d =? NBSP)
               (match_lit_starts NBSP [])) by word_chars.
    unfold strip. rewrite lstrip_id.
    + change (u ++ HYPHEN :: SP :: c :: v)
        with (u ++ [HYPHEN; SP] ++ c :: v).
      rewrite app_assoc.
      apply rstrip_app_fixed; [done|by apply rstrip_no_space].
    + apply head_space_app; [word_chars|]. done.
Qed.

Lemma clean_text_hyphen_break_witness :
  Forall (fun d => word_char d = true) (cps "A") ∧ isspace LF = true
  ∧ word_char 102 = true ∧ Forall (fun d => word_char d = true) (cps "oo")
  ∧ clean_text (cps "A" ++ [HYPHEN; LF] ++ 102 :: cps "oo")
    = if is_lower_az 102 then cps "A" ++ 102 :: cps "oo"
      else cps "A" ++ [HYPHEN; SP] ++ 102 :: cps "oo".
Proof.
  assert (Forall (fun d => word_char d = true) (cps "A")) as Hu
    by (repeat constructor).
  assert (Forall (fun d => word_char d = true) (cps "oo")) as Hv
    by (repeat constructor).
  split; [exact Hu|]. split; [reflexivity|]. split; [reflexivity|].
  split; [exact Hv|].
  apply (clean_text_hyphen_break (cps "A") (cps "oo") LF 102);
    [exact Hu|reflexivity|reflexivity|exact Hv].
Defined.

Lemma join_elem c words :
  c ∈ join [SP] words → c = SP ∨ ∃ w, w ∈ words ∧ c ∈ w.
Proof.
  induction words as [|w [|w2 rest] IH].
  - by intros ?%elem_of_nil.
  - intros H. right. exists w. split; [apply elem_of_cons; auto|done].
  - change (join [SP] (w :: w2 :: rest))
      with (w ++ [SP] ++ join [SP] (w2 :: rest)).
    rewrite !elem_of_app, list_elem_of_singleton. intros [H|[H|H]]; [|by left|].
    + right. exists w. split; [apply elem_of_cons; auto|done].
    + destruct (IH H) as [?|(w' & Hw' & Hc)]; [by left|].
      right. exists w'. split; [apply elem_of_cons; auto|done].
Qed.

Lemma tagless_without_lt y : LT ∉ y → tagless y.
Proof.
  induction y as [|c y IH]; simpl; [done|].
  intros [Hc Hy]%not_elem_of_cons. split; [|by apply IH]. by intros ->.
Qed.

Lemma spaced_app_word w t :
  Forall (fun c => isspace c = false) w → spaced t → spaced (w ++ t).
Proof.
  induction 1 as [|c w Hc Hw IH]; simpl; [done|]. intros Ht.
  split; [by rewrite Hc|by apply IH].
Qed.

Lemma is_word_no_space w :
  is_word w → w ≠ [] ∧ Forall (fun c => isspace c = false) w.
Proof.
  intros [Hne Hw]. split; [done|]. apply Forall_forall. intros c Hc.
  by destruct (word_char_spec c (Hw c Hc)).
Qed.

Lemma join_words_shape words :
  Forall is_word words →
  spaced (join [SP] words) ∧ head_space (join [SP] words) = false
  ∧ rstrip (join [SP] words) = join [SP] words
  ∧ (words ≠ [] → join [SP] words ≠ []).
Proof.
  induction words as [|w [|w2 rest] IH]; intros Hall.
  - done.
  - apply Forall_inv in Hall. apply is_word_no_space in Hall as [Hne Hw].
    change (join [SP] [w]) with w. repeat split; try done.
    + rewrite <- (app_nil_r w). by apply spaced_app_word.
    + destruct Hw; [done|]. done.
    + by apply rstrip_no_space.
  - pose proof (Forall_inv Hall) as Hw. apply is_word_no_space in Hw as [Hne Hw].
    apply Forall_inv_tail in Hall.
    destruct (IH Hall) as (Hs & Hh & Hr & Hn).
    change (join [SP] (w :: w2 :: rest))
      with (w ++ [SP] ++ join [SP] (w2 :: rest)).
    repeat split.
    + apply spaced_app_word; [done|]. simpl. by split.
    + destruct Hw as [|c w' Hc Hw']; [done|]. exact Hc.
    + rewrite app_assoc. apply rstrip_app_fixed; [by apply Hn|done].
    + intros _. destruct Hw as [|c w' Hc Hw']; done.
Qed.

(** X6: words of characters that are neither white space, [<], hyphen
    nor bullet, joined by single spaces, are left unchanged. *)
Theorem clean_text_words (words : list text) :
  Forall is_word words →
  clean_text (join [SP] words) = join [SP] words.
Proof.
  intros Hall. destruct (join_words_shape words Hall) as (Hs & Hh & Hr & _).
  assert (∀ c, c ≠ SP → (∀ d, word_char d = true → d ≠ c) →
            c ∉ join [SP] words) as Habs.
  { intros c Hsp Hc [->|(w & Hw & Hin)]%join_elem; [done|].
    rewrite Forall_forall in Hall. destruct (Hall w Hw) as [_ Hchars].
    by apply (Hc c (Hchars c Hin)). }
  apply clean_text_fixpoint. repeat split; try done.
  - apply tagless_without_lt, Habs; [done|]. by intros d Hd ->.
  - apply Habs; [done|]. by intros d Hd ->.
  - apply Habs; [done|]. by intros d Hd ->.
Qed.

Lemma clean_text_words_witness :
  Forall is_word [cps "No"; cps "mass"; cps "lesion."]
  ∧ clean_text (join [SP] [cps "No"; cps "mass"; cps "lesion."])
    = join [SP] [cps "No"; cps "mass"; cps "lesion."].
Proof.
  assert (Forall is_word [cps "No"; cps "mass"; cps "lesion."]) as H.
  { repeat constructor; try done;
      intros c Hc; repeat (apply elem_of_cons in Hc as [->|Hc]; [reflexivity|]);
      by apply elem_of_nil in Hc. }
  split; [exact H|].
  apply (clean_text_words [cps "No"; cps "mass"; cps "lesion."]). exact H.
Defined.

(** ** Document extraction, continued *)

Lemma read_pages_all (W : World) (pages : list (page W)) (texts : list text)
    (acc : text) :
  Forall2 (page_text W) pages texts →
  read_pages W pages acc
  = Return (acc ++ concat (map (fun t => t ++ [LF]) texts)).
Proof.
  intros H. revert acc. induction H as [|p t pages texts Hp _ IH]; intros acc.
  - simpl. by rewrite app_nil_r.
  - simpl. rewrite Hp. simpl. rewrite IH. by rewrite <- !app_assoc.
Qed.

(** X7: when every page yields its text, the page loop returns the texts
    in page order, each followed by one newline. *)
Theorem read_pages_concatenates (W : World) (pages : list (page W))
    (texts : list text) :
  Forall2 (page_text W) pages texts →
  read_pages W pages [] = Return (concat (map (fun t => t ++ [LF]) texts)).
Proof. intros H. by rewrite (read_pages_all W pages texts []). Qed.

Lemma read_pages_concatenates_witness :
  Forall2 (page_text two_page_world)
    [Return (cps "A-" ++ [LF] ++ cps "foo"); Return (cps "bar")]
    [cps "A-" ++ [LF] ++ cps "foo"; cps "bar"]
  ∧ read_pages two_page_world
      [Return (cps "A-" ++ [LF] ++ cps "foo"); Return (cps "bar")] []
    = Return (concat (map (fun t => t ++ [LF])
                        [cps "A-" ++ [LF] ++ cps "foo"; cps "bar"])).
Proof.
  assert (Forall2 (page_text two_page_world)
            [Return (cps "A-" ++ [LF] ++ cps "foo"); Return (cps "bar")]
            [cps "A-" ++ [LF] ++ cps "foo"; cps "bar"]) as H
    by (repeat constructor).
  split; [exact H|].
  apply (read_pages_concatenates two_page_world _ _ H).
Defined.

(** X8: the first page whose extraction raises ends the loop with that
    exception; the text of the pages before it is dropped and the pages
    after it are not read. *)
Theorem read_pages_first_failure (W : World) (before after : list (page W))
    (bad : page W) (texts : list text) (acc : text) (e : exn) :
  Forall2 (page_text W) before texts →
  extract_text W bad = Raise e →
  read_pages W (before ++ bad :: after) acc = Raise e.
Proof.
  intros H Hbad. revert acc.
  induction H as [|p t pages texts' Hp _ IH]; intros acc; simpl.
  - by rewrite Hbad.
  - rewrite Hp. simpl. apply IH.
Qed.

Lemma read_pages_first_failure_witness :
  Forall2 (page_text offline_world) [Return (cps "page one")] [cps "page one"]
  ∧ extract_text offline_world
      (Raise (LibraryError (cps "Invalid Elementary Object")))
    = Raise (LibraryError (cps "Invalid Elementary Object"))
  ∧ read_pages offline_world damaged_pages []
    = Raise (LibraryError (cps "Invalid Elementary Object")).
Proof.
  assert (Forall2 (page_text offline_world)
            [Return (cps "page one")] [cps "page one"]) as H
    by (repeat constructor).
  split; [exact H|]. split; [reflexivity|].
  apply (read_pages_first_failure offline_world [Return (cps "page one")]
           [Return (cps "page three")]
           (Raise (LibraryError (cps "Invalid Elementary Object")))
           [cps "page one"] [] _ H).
  reflexivity.
Defined.

(** X9: whichever of opening the file, parsing it or reading a page
    raises, [extract_text_from_pdf] returns the error prefix followed by
    the exception's message. *)
Theorem extract_text_from_pdf_catches (W : World) (path : text) (e : exn) :
  open_rb W path = Raise e
  ∨ (∃ file, open_rb W path = Return file ∧ PdfReader W file = Raise e)
  ∨ (∃ file pages,
       open_rb W path = Return file ∧ PdfReader W file = Return pages
       ∧ read_pages W pages [] = Raise e) →
  extract_text_from_pdf W path = cps "Error extracting text: " ++ str_exn W e.
Proof.
  intros H. apply extract_text_from_pdf_failure.
  destruct H as [H|[(file & Ho & H)|(file & pages & Ho & Hp & H)]].
  - by rewrite H.
  - rewrite Ho. simpl. by rewrite H.
  - rewrite Ho. simpl. rewrite Hp. simpl. done.
Qed.

Lemma extract_text_from_pdf_catches_witness :
  extract_text_from_pdf offline_world (cps "scan.pdf")
  = cps "Error extracting text: "
    ++ str_exn offline_world (LibraryError (cps "No such file or directory")).
Proof.
  apply (extract_text_from_pdf_catches offline_world (cps "scan.pdf")).
  left. reflexivity.
Defined.

(** X10: a readable document whose pages hold white space only, or which
    has no page at all, extracts to the empty text. *)
Theorem extract_text_from_pdf_blank (W : World) (path : text)
    (file : stream W) (pages : list (page W)) (texts : list text) :
  open_rb W path = Return file → PdfReader W file = Return pages →
  Forall2 (page_text W) pages texts →
  Forall (Forall (fun c => isspace c = true)) texts →
  extract_text_from_pdf W path = [].
Proof.
  intros Ho Hp Hpages Hblank.
  rewrite (extract_text_from_pdf_success W path
             (concat (map (fun t => t ++ [LF]) texts))).
  - apply clean_text_all_space. intros c Hc.
    apply list_elem_of_In, in_concat in Hc as (l & Hl & Hc).
    apply in_map_iff in Hl as (t & <- & Ht).
    apply in_app_or in Hc as [Hc|[<-|[]]]; [|done].
    rewrite Forall_forall in Hblank.
    apply list_elem_of_In in Ht, Hc.
    specialize (Hblank t Ht). rewrite Forall_forall in Hblank. by apply Hblank.
  - rewrite Ho. simpl. rewrite Hp. simpl.
    by rewrite (read_pages_all W pages texts []).
Qed.

Lemma extract_text_from_pdf_blank_witness :
  extract_text_from_pdf blank_world (cps "scan.pdf") = [].
Proof.
  apply (extract_text_from_pdf_blank blank_world (cps "scan.pdf")
           (Return [Return [SP; LF]; Return []])
           [Return [SP; LF]; Return []] [[SP; LF]; []]).
  - reflexivity.
  - reflexivity.
  - repeat constructor.
  - repeat constructor.
Defined.

(** ** Upload, continued *)

Lemma upload_pdf_cases (W : World) (id : text) (st : store)
    (file : option (FileStorage W)) :
  (∃ msg, upload_pdf W id st file
          = (Return {| status := 400;
                       body := JObj [(cps "error", JStr msg)] |}, st))
  ∨ (∃ e, upload_pdf W id st file = (Raise e, st))
  ∨ (∃ name raw fields,
       upload_pdf W id st file
       = (Return {| status := 200; body := JObj fields |},
          <[id := {| sf_filename := name; sf_text := clean_text raw |}]> st)).
Proof.
  unfold upload_pdf. destruct file as [f|]; [|left; eauto].
  destruct (text_eqb (filename f) []); [left; eauto|]. simpl.
  destruct (allowed_file W (filename f)); [|left; eauto].
  destruct (PdfReader W (file_stream f)) as [pages|e]; simpl;
    [|right; left; eauto].
  destruct (read_pages W pages []) as [raw|e]; [|right; left; eauto].
  right. right. eauto.
Qed.

(** X11: an upload either answers 400 or ends in an exception, and then
    leaves [uploaded_files] as it was, or answers 200 and adds one entry,
    under the fresh identifier, whose text is a cleaned text. *)
Theorem upload_pdf_outcomes (W : World) (fresh_id : text) (st : store)
    (file : option (FileStorage W)) :
  match upload_pdf W fresh_id st file with
  | (Return r, st') =>
      (status r = 400%nat ∧ st' = st)
      ∨ (status r = 200%nat
         ∧ ∃ name raw,
             st' = <[fresh_id := {| sf_filename := name;
                                    sf_text := clean_text raw |}]> st)
  | (Raise e, st') => st' = st
  end.
Proof.
  destruct (upload_pdf_cases W fresh_id st file)
    as [(msg & ->)|[(e & ->)|(name & raw & fields & ->)]].
  - by left.
  - done.
  - right. eauto.
Qed.

(** X12: whatever an upload does, the entries under other identifiers
    are untouched. *)
Theorem upload_pdf_keeps_other_entries (W : World) (fresh_id other : text)
    (st : store) (file : option (FileStorage W)) :
  other ≠ fresh_id →
  (upload_pdf W fresh_id st file).2 !! other = st !! other.
Proof.
  intros Hne.
  destruct (upload_pdf_cases W fresh_id st file)
    as [(msg & ->)|[(e & ->)|(name & raw & fields & ->)]]; simpl; try done.
  by apply lookup_insert_ne.
Qed.

Lemma upload_pdf_keeps_other_entries_witness :
  cps "id-1" ≠ cps "id-2"
  ∧ (upload_pdf offline_world (cps "id-2") sample_store (Some short_upload)).2
      !! cps "id-1"
    = sample_store !! cps "id-1".
Proof.
  split; [discriminate|].
  apply (upload_pdf_keeps_other_entries offline_world (cps "id-2") (cps "id-1")
           sample_store (Some short_upload)).
  discriminate.
Defined.

(** X13: after an accepted upload the dictionary maps the fresh
    identifier to the secured filename and the cleaned text, and the
    [text_length] of the answer is the length of the stored text. *)
Theorem upload_pdf_stores (W : World) (fresh_id : text) (st : store)
    (f : FileStorage W) (pages : list (page W)) (raw : text) :
  filename f ≠ [] → allowed_file W (filename f) = true →
  PdfReader W (file_stream f) = Return pages →
  read_pages W pages [] = Return raw →
  ∃ fields doc,
    (upload_pdf W fresh_id st (Some f)).1
      = Return {| status := 200; body := JObj fields |}
    ∧ (upload_pdf W fresh_id st (Some f)).2 !! fresh_id = Some doc
    ∧ sf_filename doc = secure_filename W (filename f)
    ∧ sf_text doc = clean_text raw
    ∧ dict_get (cps "file_id") fields = Some (JStr fresh_id)
    ∧ dict_get (cps "text_length") fields
      = Some (JInt (Z.of_nat (length (sf_text doc)))).
Proof.
  intros Hn Ha Hp Hr.
  rewrite (upload_pdf_accepts W fresh_id st f pages raw) by done.
  eexists _, _. split; [reflexivity|]. split; [apply lookup_insert_eq|].
  repeat split.
Qed.

Lemma upload_pdf_stores_witness :
  ∃ fields doc,
    (upload_pdf offline_world (cps "id-2") sample_store (Some short_upload)).1
      = Return {| status := 200; body := JObj fields |}
    ∧ (upload_pdf offline_world (cps "id-2") sample_store (Some short_upload)).2
        !! cps "id-2" = Some doc
    ∧ sf_filename doc = secure_filename offline_world (filename short_upload)
    ∧ sf_text doc = clean_text (cps "blood  pressure  normal" ++ [LF])
    ∧ dict_get (cps "file_id") fields = Some (JStr (cps "id-2"))
    ∧ dict_get (cps "text_length") fields
      = Some (JInt (Z.of_nat (length (sf_text doc)))).
Proof.
  apply (upload_pdf_stores offline_world (cps "id-2") sample_store short_upload
           [Return (cps "blood  pressure  normal")]
           (cps "blood  pressure  normal" ++ [LF])).
  - discriminate.
  - reflexivity.
  - reflexivity.
  - reflexivity.
Defined.

(** X14: after an accepted upload with a non-empty cleaned text, a query
    under the returned identifier sends one request whose prompt is built
    from that cleaned text, and answers 200. *)
Theorem upload_then_query (W : World) (fresh_id prompt : text) (st : store)
    (f : FileStorage W) (pages : list (page W)) (raw : text) :
  filename f ≠ [] → allowed_file W (filename f) = true →
  PdfReader W (file_stream f) = Return pages →
  read_pages W pages [] = Return raw →
  clean_text raw ≠ [] →
  let req :=
    chat_request W HTTP_SYSTEM_PROMPT (prompt_text (clean_text raw) prompt) in
  query_pdf W (upload_pdf W fresh_id st (Some f)).2
    (Some {| q_file_id := Some fresh_id; q_prompt := Some prompt |})
  = (jsonify [(cps "file_id", JStr fresh_id);
              (cps "prompt", JStr prompt);
              (cps "response", ai_response_of W req)],
     [req]).
Proof.
  intros Hn Ha Hp Hr Hne.
  rewrite (upload_pdf_accepts W fresh_id st f pages raw) by done.
  apply (query_pdf_known W _ fresh_id prompt
           {| sf_filename := secure_filename W (filename f);
              sf_text := clean_text raw |}); [|done].
  apply lookup_insert_eq.
Qed.

Lemma upload_then_query_witness :
  let req :=
    chat_request offline_world HTTP_SYSTEM_PROMPT
      (prompt_text (clean_text (cps "blood  pressure  normal" ++ [LF]))
         (cps "Is it normal?")) in
  query_pdf offline_world
    (upload_pdf offline_world (cps "id-2") sample_store (Some short_upload)).2
    (Some {| q_file_id := Some (cps "id-2");
             q_prompt := Some (cps "Is it normal?") |})
  = (jsonify [(cps "file_id", JStr (cps "id-2"));
              (cps "prompt", JStr (cps "Is it normal?"));
              (cps "response", ai_response_of offline_world req)],
     [req]).
Proof.
  apply (upload_then_query offline_world (cps "id-2") (cps "Is it normal?")
           sample_store short_upload
           [Return (cps "blood  pressure  normal")]
           (cps "blood  pressure  normal" ++ [LF])).
  - discriminate.
  - reflexivity.
  - reflexivity.
  - reflexivity.
  - discriminate.
Defined.

(** X15: a document whose cleaned text is empty is accepted with status
    200 and text length 0, but every later query under its identifier is
    answered 400 and sends nothing. *)
Theorem upload_blank_then_query (W : World) (fresh_id prompt : text)
    (st : store) (f : FileStorage W) (pages : list (page W)) (raw : text) :
  filename f ≠ [] → allowed_file W (filename f) = true →
  PdfReader W (file_stream f) = Return pages →
  read_pages W pages [] = Return raw →
  clean_text raw = [] →
  (∃ fields,
     (upload_pdf W fresh_id st (Some f)).1
       = Return {| status := 200; body := JObj fields |}
     ∧ dict_get (cps "text_length") fields = Some (JInt 0))
  ∧ query_pdf W (upload_pdf W fresh_id st (Some f)).2
      (Some {| q_file_id := Some fresh_id; q_prompt := Some prompt |})
    = ({| status := 400;
          body := JObj [(cps "error",
                         JStr (cps "Invalid file_id or no PDF content found"))] |},
       []).
Proof.
  intros Hn Ha Hp Hr Hempty.
  rewrite (upload_pdf_accepts W fresh_id st f pages raw) by done.
  rewrite Hempty. split.
  - eexists. split; reflexivity.
  - unfold query_pdf. simpl. by rewrite lookup_insert_eq.
Qed.

Lemma upload_blank_then_query_witness :
  (∃ fields,
     (upload_pdf offline_world (cps "id-3") sample_store (Some blank_upload)).1
       = Return {| status := 200; body := JObj fields |}
     ∧ dict_get (cps "text_length") fields = Some (JInt 0))
  ∧ query_pdf offline_world
      (upload_pdf offline_world (cps "id-3") sample_store (Some blank_upload)).2
      (Some {| q_file_id := Some (cps "id-3");
               q_prompt := Some (cps "Anything?") |})
    = ({| status := 400;
          body := JObj [(cps "error",
                         JStr (cps "Invalid file_id or no PDF content found"))] |},
       []).
Proof.
  apply (upload_blank_then_query offline_world (cps "id-3") (cps "Anything?")
           sample_store blank_upload [Return [SP; LF]] [SP; LF; LF]).
  - discriminate.
  - reflexivity.
  - reflexivity.
  - reflexivity.
  - reflexivity.
Defined.

(** X16: starting from the empty dictionary of line 33, after any
    sequence of uploads every stored text is an output of [clean_text]. *)
Theorem stored_texts_are_cleaned (W : World)
    (uploads : list (text * option (FileStorage W))) (id : text)
    (doc : stored_file) :
  after_uploads W ∅ uploads !! id = Some doc →
  ∃ raw, sf_text doc = clean_text raw.
Proof.
  unfold after_uploads.
  assert (∀ st : store,
            (∀ i d, st !! i = Some d → ∃ raw, sf_text d = clean_text raw) →
            ∀ i d,
              fold_left (fun st u => (upload_pdf W u.1 st u.2).2) uploads st
                !! i = Some d →
              ∃ raw, sf_text d = clean_text raw) as Hgen.
  { induction uploads as [|[uid file] uploads IH]; intros st Hst; [done|].
    simpl. apply IH. intros i d.
    destruct (upload_pdf_cases W uid st file)
      as [(msg & ->)|[(e & ->)|(name & raw & fields & ->)]]; simpl;
      try apply Hst.
    destruct (decide (uid = i)) as [->|Hne].
    - rewrite lookup_insert_eq. intros [= <-]. by exists raw.
    - rewrite lookup_insert_ne by done. apply Hst. }
  apply Hgen. intros i d. by rewrite lookup_empty.
Qed.

Lemma stored_texts_are_cleaned_witness :
  after_uploads offline_world ∅
    [(cps "id-1", Some text_upload); (cps "id-2", Some short_upload);
     (cps "id-3", Some corrupt_upload)] !! cps "id-2"
  = Some {| sf_filename := cps "Note.PDF";
            sf_text := cps "blood pressure normal" |}
  ∧ ∃ raw, cps "blood pressure normal" = clean_text raw.
Proof.
  split; [reflexivity|].
  apply (stored_texts_are_cleaned offline_world
           [(cps "id-1", Some text_upload); (cps "id-2", Some short_upload);
            (cps "id-3", Some corrupt_upload)]
           (cps "id-2")
           {| sf_filename := cps "Note.PDF";
              sf_text := cps "blood pressure normal" |}).
  reflexivity.
Defined.

(** X17: the preview is never longer than 503 characters and agrees with
    the text on its first 500 characters. *)
Theorem text_preview_bounded (s : text) :
  (length (text_preview s) ≤ 503)%nat
  ∧ take 500 (text_preview s) = take 500 s.
Proof.
  unfold text_preview. destruct (Nat.ltb_spec 500 (length s)) as [H|H].
  - rewrite length_app, length_take. change (length ELLIPSIS) with 3%nat.
    split; [lia|].
    rewrite take_app_le by (rewrite length_take; lia).
    rewrite take_take. f_equal.
  - split; [lia|done].
Qed.

(** X18: a request without a file part, or whose file has an empty name,
    is answered 400 and changes nothing. *)
Theorem upload_pdf_without_file (W : World) (fresh_id : text) (st : store)
    (file : option (FileStorage W)) :
  file = None ∨ (∃ f, file = Some f ∧ filename f = []) →
  ∃ msg,
    upload_pdf W fresh_id st file
    = (Return {| status := 400; body := JObj [(cps "error", JStr msg)] |}, st)
    ∧ (msg = cps "No file part in the request" ∨ msg = cps "No file selected").
Proof.
  intros [->|(f & -> & Hf)]; simpl.
  - eexists. split; [reflexivity|by left].
  - unfold text_eqb. rewrite bool_decide_eq_true_2 by done.
    eexists. split; [reflexivity|by right].
Qed.

Lemma upload_pdf_without_file_witness :
  ∃ msg,
    upload_pdf offline_world (cps "id-2") sample_store None
    = (Return {| status := 400; body := JObj [(cps "error", JStr msg)] |},
       sample_store)
    ∧ (msg = cps "No file part in the request" ∨ msg = cps "No file selected").
Proof.
  apply (upload_pdf_without_file offline_world (cps "id-2") sample_store None).
  by left.
Defined.

(** ** Query, continued *)

Lemma query_pdf_cases (W : World) (st : store) (data : option query_data) :
  (∃ msg,
     query_pdf W st data
     = ({| status := 400; body := JObj [(cps "error", JStr msg)] |}, []))
  ∨ (∃ file_id prompt doc,
       data = Some {| q_file_id := Some file_id; q_prompt := Some prompt |}
       ∧ st !! file_id = Some doc ∧ sf_text doc ≠ []).
Proof.
  destruct data as [[[file_id|] [prompt|]]|]; try (left; eexists; reflexivity).
  destruct (st !! file_id) as [doc|] eqn:E.
  - destruct (sf_text doc) as [|c t] eqn:Et.
    + left. unfold query_pdf. rewrite E. simpl. rewrite Et. eauto.
    + right. exists file_id, prompt, doc. rewrite Et. done.
  - left. unfold query_pdf. rewrite E. simpl. eauto.
Qed.

(** X19: a query under an identifier that is not in [uploaded_files] is
    answered 400, whatever the prompt, and nothing is sent. *)
Theorem query_pdf_unknown_file_id (W : World) (st : store)
    (file_id prompt : text) :
  st !! file_id = None →
  query_pdf W st
    (Some {| q_file_id := Some file_id; q_prompt := Some prompt |})
  = ({| status := 400;
        body := JObj [(cps "error",
                       JStr (cps "Invalid file_id or no PDF content found"))] |},
     []).
Proof. intros H. unfold query_pdf. by rewrite H. Qed.

Lemma query_pdf_unknown_file_id_witness :
  query_pdf offline_world sample_store
    (Some {| q_file_id := Some (cps "id-7");
             q_prompt := Some (cps "Is it benign?") |})
  = ({| status := 400;
        body := JObj [(cps "error",
                       JStr (cps "Invalid file_id or no PDF content found"))] |},
     []).
Proof.
  apply (query_pdf_unknown_file_id offline_world sample_store (cps "id-7")
           (cps "Is it benign?")).
  reflexivity.
Defined.

Lemma fetch_answer_success (W : World) (req : http_request)
    (response : http_response) (result v : json) :
  requests_post W req = Return response →
  ¬ (400 ≤ status_code response < 600)%nat →
  json_body response = Return result →
  first_choice_content result = Return v →
  fetch_answer W req = Return v.
Proof.
  intros Hp Hs Hj Hv. unfold fetch_answer. rewrite Hp. simpl.
  rewrite raise_for_status_ok by done. simpl. rewrite Hj. simpl. done.
Qed.

(** X21: when the remote endpoint answers without an error status and the
    decoded body holds [choices[0].message.content], the query answers 200
    with that value, unchanged, as [response], and echoes the identifier
    and the prompt. *)
Theorem query_pdf_relays_answer (W : World) (st : store)
    (file_id prompt : text) (doc : stored_file)
    (response : http_response) (result v : json) :
  st !! file_id = Some doc → sf_text doc ≠ [] →
  requests_post W
    (chat_request W HTTP_SYSTEM_PROMPT (prompt_text (sf_text doc) prompt))
    = Return response →
  ¬ (400 ≤ status_code response < 600)%nat →
  json_body response = Return result →
  first_choice_content result = Return v →
  (query_pdf W st
     (Some {| q_file_id := Some file_id; q_prompt := Some prompt |})).1
  = {| status := 200;
       body := JObj [(cps "file_id", JStr file_id);
                     (cps "prompt", JStr prompt);
                     (cps "response", v)] |}.
Proof.
  intros Hdoc Hne Hp Hs Hj Hv.
  rewrite (query_pdf_known W st file_id prompt doc) by done. simpl.
  unfold ai_response_of.
  by rewrite (fetch_answer_success W _ response result v).
Qed.

Lemma query_pdf_relays_answer_witness :
  (query_pdf answer_world sample_store
     (Some {| q_file_id := Some (cps "id-1");
              q_prompt := Some (cps "Is it benign?") |})).1
  = {| status := 200;
       body := JObj [(cps "file_id", JStr (cps "id-1"));
                     (cps "prompt", JStr (cps "Is it benign?"));
                     (cps "response", JStr (cps "Likely benign."))] |}.
Proof.
  eapply (query_pdf_relays_answer answer_world sample_store (cps "id-1")
            (cps "Is it benign?")
            {| sf_filename := cps "mri.pdf"; sf_text := cps "No mass lesion." |}).
  - reflexivity.
  - discriminate.
  - reflexivity.
  - simpl. lia.
  - reflexivity.
  - reflexivity.
Defined.

(** X22: the subscripts of lines 138 and 192 succeed exactly on an object
    whose [choices] is a list starting with an object whose [message] is
    an object with a [content] key, and then give that key's value. *)
Theorem first_choice_content_shape (result v : json) :
  first_choice_content result = Return v
  ↔ ∃ fields rest choice msg,
      result = JObj fields
      ∧ dict_get (cps "choices") fields = Some (JArr (JObj choice :: rest))
      ∧ dict_get (cps "message") choice = Some (JObj msg)
      ∧ dict_get (cps "content") msg = Some v.
Proof.
  unfold first_choice_content. split.
  - destruct result as [| | | | |items|fields]; try done. simpl.
    destruct (dict_get (cps "choices") fields) as [choices|] eqn:Ec; [|done].
    simpl. destruct choices as [| | | |s|items|fs]; try done; simpl.
    + by destruct (s !! 0%nat).
    + destruct items as [|first rest]; [done|]. simpl.
      destruct first as [| | | | |items'|choice]; try done. simpl.
      destruct (dict_get (cps "message") choice) as [msg|] eqn:Em; [|done].
      simpl. destruct msg as [| | | | |items'|msg]; try done. simpl.
      destruct (dict_get (cps "content") msg) as [x|] eqn:Ex; [|done].
      intros [= <-]. by exists fields, rest, choice, msg.
  - intros (fields & rest & choice & msg & -> & Hc & Hm & Hv).
    simpl. rewrite Hc. simpl. rewrite Hm. simpl. by rewrite Hv.
Qed.

(** ** Command line, continued *)

Lemma run_cli_mode_cases (W : World) (argv : list text) :
  (argv !! 1%nat ≠ Some (cps "--cli")
   ∧ run_cli_mode W argv = {| printed := []; sent := []; exit_status := None |})
  ∨ (argv !! 1%nat = Some (cps "--cli") ∧ (length argv < 4)%nat
     ∧ run_cli_mode W argv
       = {| printed := [JStr USAGE]; sent := []; exit_status := Some 1%nat |})
  ∨ (∃ prog path words,
       argv = prog :: cps "--cli" :: path :: words ∧ words ≠ []).
Proof.
  destruct (decide (argv !! 1%nat = Some (cps "--cli"))) as [Hcli|Hcli].
  - right. destruct argv as [|prog [|flag [|path [|w ws]]]]; try done;
      injection Hcli as ->.
    + left. split; [done|]. split; [simpl; lia|reflexivity].
    + left. split; [done|]. split; [simpl; lia|reflexivity].
    + right. by exists prog, path, (w :: ws).
  - left. split; [done|]. unfold run_cli_mode.
    by rewrite (bool_decide_eq_false_2 _ Hcli), andb_false_r.
Qed.

(** X23: with [--cli] and fewer than two further arguments the run
    prints the usage line, sends nothing and exits with status 1. *)
Theorem run_cli_mode_usage (W : World) (prog : text) (rest : list text) :
  (length rest < 2)%nat →
  run_cli_mode W (prog :: cps "--cli" :: rest)
  = {| printed := [JStr (cps "Usage: python app.py --cli <pdf_path> <query>")];
       sent := [];
       exit_status := Some 1%nat |}.
Proof.
  intros H. destruct rest as [|path [|w ws]]; [reflexivity|reflexivity|].
  simpl in H. lia.
Qed.

Lemma run_cli_mode_usage_witness :
  (length [cps "mri.pdf"] < 2)%nat
  ∧ run_cli_mode offline_world [cps "app.py"; cps "--cli"; cps "mri.pdf"]
    = {| printed := [JStr (cps "Usage: python app.py --cli <pdf_path> <query>")];
         sent := [];
         exit_status := Some 1%nat |}.
Proof.
  split; [simpl; lia|].
  apply (run_cli_mode_usage offline_world (cps "app.py") [cps "mri.pdf"]).
  simpl. lia.
Defined.

(** X24: when opening, parsing or reading the document raises, the run
    prints the progress line and the error text, sends nothing and exits
    with status 1. *)
Theorem run_cli_mode_failed_extraction (W : World) (prog path : text)
    (words : list text) (e : exn) :
  words ≠ [] →
  (let! file := open_rb W path in
   let! pages := PdfReader W file in
   read_pages W pages []) = Raise e →
  run_cli_mode W (prog :: cps "--cli" :: path :: words)
  = {| printed := [JStr (cps "Processing PDF: " ++ path);
                   JStr (cps "Error extracting text: " ++ str_exn W e)];
       sent := [];
       exit_status := Some 1%nat |}.
Proof. apply run_cli_mode_extraction_failure. Qed.

Lemma run_cli_mode_failed_extraction_witness :
  run_cli_mode two_page_world
    [cps "app.py"; cps "--cli"; cps "missing.pdf"; cps "Explain"]
  = {| printed := [JStr (cps "Processing PDF: " ++ cps "missing.pdf");
                   JStr (cps "Error extracting text: "
                         ++ str_exn two_page_world
                              (LibraryError (cps "No such file or directory")))];
       sent := [];
       exit_status := Some 1%nat |}.
Proof.
  apply (run_cli_mode_failed_extraction two_page_world (cps "app.py")
           (cps "missing.pdf") [cps "Explain"]).
  - discriminate.
  - reflexivity.
Defined.

(** X25: once the extracted text does not begin with [Error], a failing
    remote call does not change the exit status: the run prints the error
    text in place of the answer and exits with status 0. *)
Theorem run_cli_mode_remote_failure (W : World) (prog path : text)
    (words : list text) (e : exn) :
  words ≠ [] →
  is_prefix (cps "Error") (extract_text_from_pdf W path) = false →
  remote_failure W
    (chat_request W CLI_SYSTEM_PROMPT
       (prompt_text (extract_text_from_pdf W path) (join [SP] words))) e →
  run_cli_mode W (prog :: cps "--cli" :: path :: words)
  = {| printed := [JStr (cps "Processing PDF: " ++ path);
                   JStr ([LF] ++ cps "Getting AI response...");
                   JStr ([LF] ++ cps "AI Response:");
                   JStr (cps "Error getting AI response: " ++ str_exn W e)];
       sent := [chat_request W CLI_SYSTEM_PROMPT
                  (prompt_text (extract_text_from_pdf W path)
                     (join [SP] words))];
       exit_status := Some 0%nat |}.
Proof.
  intros Hw Hp Hfail. rewrite (run_cli_mode_answers W prog path words) by done.
  by rewrite (ai_response_of_failure W _ e).
Qed.

Lemma run_cli_mode_remote_failure_witness :
  run_cli_mode two_page_world
    [cps "app.py"; cps "--cli"; cps "mri.pdf"; cps "Explain"; cps "this"]
  = {| printed := [JStr (cps "Processing PDF: " ++ cps "mri.pdf");
                   JStr ([LF] ++ cps "Getting AI response...");
                   JStr ([LF] ++ cps "AI Response:");
                   JStr (cps "Error getting AI response: "
                         ++ str_exn two_page_world
                              (LibraryError (cps "Connection refused")))];
       sent := [chat_request two_page_world CLI_SYSTEM_PROMPT
                  (prompt_text
                     (extract_text_from_pdf two_page_world (cps "mri.pdf"))
                     (join [SP] [cps "Explain"; cps "this"]))];
       exit_status := Some 0%nat |}.
Proof.
  apply (run_cli_mode_remote_failure two_page_world (cps "app.py")
           (cps "mri.pdf") [cps "Explain"; cps "this"]
           (LibraryError (cps "Connection refused"))).
  - discriminate.
  - reflexivity.
  - apply transport_error. reflexivity.
Defined.

(** X26: a run either exits 0 after exactly one request and four printed
    values, or exits 1 having printed something and sent nothing, or,
    without [--cli] as first argument, returns having done nothing. *)
Theorem run_cli_mode_outcomes (W : World) (argv : list text) :
  let run := run_cli_mode W argv in
  (exit_status run = Some 0%nat ∧ length (sent run) = 1%nat
   ∧ length (printed run) = 4%nat)
  ∨ (exit_status run = Some 1%nat ∧ sent run = [] ∧ printed run ≠ [])
  ∨ (exit_status run = None ∧ sent run = [] ∧ printed run = []
     ∧ argv !! 1%nat ≠ Some (cps "--cli")).
Proof.
  intros run. subst run.
  destruct (run_cli_mode_cases W argv)
    as [[Hn ->]|[(_ & _ & ->)|(prog & path & words & -> & Hw)]].
  - right. right. done.
  - right. left. done.
  - rewrite run_cli_mode_cli by done. cbv zeta.
    destruct (is_prefix (cps "Error") (extract_text_from_pdf W path)).
    + right. left. done.
    + left. done.
Qed.

(** ** Requests *)

Lemma chat_request_shape (W : World) (system user : text) :
  fixed_request_shape W (chat_request W system user).
Proof.
  repeat split; [|by eexists _, _].
  unfold chat_request, api_headers. simpl. apply elem_of_cons. by left.
Qed.

(** X27: every request either handler sends goes to the one completions
    URL, names the one model, carries the bearer key and consists of a
    system message followed by a user message. *)
Theorem outbound_requests_shape (W : World) (st : store)
    (data : option query_data) (argv : list text) (req : http_request) :
  req ∈ (query_pdf W st data).2 ∨ req ∈ sent (run_cli_mode W argv) →
  fixed_request_shape W req.
Proof.
  intros [Hq|Hc].
  - destruct (query_pdf_cases W st data)
      as [(msg & Heq)|(file_id & prompt & doc & -> & Hdoc & Hne)].
    + rewrite Heq in Hq. by apply elem_of_nil in Hq.
    + rewrite (query_pdf_known W st file_id prompt doc) in Hq by done.
      apply list_elem_of_singleton in Hq as ->. apply chat_request_shape.
  - destruct (run_cli_mode_cases W argv)
      as [[Hn Heq]|[(_ & _ & Heq)|(prog & path & words & -> & Hw)]].
    + rewrite Heq in Hc. by apply elem_of_nil in Hc.
    + rewrite Heq in Hc. by apply elem_of_nil in Hc.
    + rewrite run_cli_mode_cli in Hc by done. cbv zeta in Hc.
      destruct (is_prefix (cps "Error") (extract_text_from_pdf W path)).
      * by apply elem_of_nil in Hc.
      * apply list_elem_of_singleton in Hc as ->. apply chat_request_shape.
Qed.

Lemma outbound_requests_shape_witness :
  fixed_request_shape offline_world
    (chat_request offline_world HTTP_SYSTEM_PROMPT
       (prompt_text (cps "No mass lesion.") (cps "Is it benign?"))).
Proof.
  apply (outbound_requests_shape offline_world sample_store
           (Some {| q_file_id := Some (cps "id-1");
                    q_prompt := Some (cps "Is it benign?") |})
           []).
  left. apply list_elem_of_singleton. reflexivity.
Defined.

(** X28: with a remote answer of the expected shape the run prints the
    value of [content], unchanged, as its last line and exits with status
    0. *)
Theorem run_cli_mode_relays_answer (W : World) (prog path : text)
    (words : list text) (response : http_response) (result v : json) :
  words ≠ [] →
  is_prefix (cps "Error") (extract_text_from_pdf W path) = false →
  requests_post W
    (chat_request W CLI_SYSTEM_PROMPT
       (prompt_text (extract_text_from_pdf W path) (join [SP] words)))
    = Return response →
  ¬ (400 ≤ status_code response < 600)%nat →
  json_body response = Return result →
  first_choice_content result = Return v →
  printed (run_cli_mode W (prog :: cps "--cli" :: path :: words))
    = [JStr (cps "Processing PDF: " ++ path);
       JStr ([LF] ++ cps "Getting AI response...");
       JStr ([LF] ++ cps "AI Response:");
       v]
  ∧ exit_status (run_cli_mode W (prog :: cps "--cli" :: path :: words))
    = Some 0%nat.
Proof.
  intros Hw Hp Hpost Hs Hj Hv.
  rewrite (run_cli_mode_answers W prog path words) by done. simpl.
  unfold ai_response_of.
  by rewrite (fetch_answer_success W _ response result v).
Qed.

Lemma run_cli_mode_relays_answer_witness :
  printed (run_cli_mode mri_world
             [cps "app.py"; cps "--cli"; cps "mri.pdf"; cps "Explain"])
    = [JStr (cps "Processing PDF: " ++ cps "mri.pdf");
       JStr ([LF] ++ cps "Getting AI response...");
       JStr ([LF] ++ cps "AI Response:");
       JStr (cps "Two words.")]
  ∧ exit_status (run_cli_mode mri_world
                   [cps "app.py"; cps "--cli"; cps "mri.pdf"; cps "Explain"])
    = Some 0%nat.
Proof.
  eapply (run_cli_mode_relays_answer mri_world (cps "app.py") (cps "mri.pdf")
            [cps "Explain"]).
  - discriminate.
  - reflexivity.
  - reflexivity.
  - simpl. lia.
  - reflexivity.
  - reflexivity.
Defined.

(** ** The filename filter, continued *)

(** X29: [allowed_file] accepts exactly the names that end in a dot and
    an extension without dots whose lower-case form is [pdf]; only what
    follows the last dot counts. *)
Theorem allowed_file_accepts_exactly (W : World) (name : text) :
  allowed_file W name = true
  ↔ ∃ stem ext,
      name = stem ++ DOT :: ext ∧ (DOT ∉ ext) ∧ lower W ext = cps "pdf".
Proof.
  rewrite allowed_file_spec. unfold has_allowed_extension, ALLOWED_EXTENSIONS.
  split; intros (stem & ext & Hn & Hd & He); exists stem, ext;
    (split; [done|]); (split; [done|]).
  - by apply elem_of_singleton in He.
  - by apply elem_of_singleton.
Qed.

(** ** Bullets *)

Lemma rstrip_app_space s : rstrip (s ++ [SP]) = rstrip s.
Proof.
  induction s as [|a s IH]; [done|].
  change (rstrip ((a :: s) ++ [SP])) with
    (match rstrip (s ++ [SP]) with
     | [] => if isspace a then [] else [a]
     | r => a :: r
     end).
  by rewrite IH.
Qed.

(** X2: no output of [clean_text] contains the bullet U+2022, and a
    bullet between two runs [u] and [v] of characters that are neither
    white space, [<], hyphen nor bullet is replaced by the four characters
    U+00E2, U+20AC, U+00A2, U+0020 of line 46; the final space is stripped
    when [v] is empty. *)
Theorem clean_text_bullet_replaced (x u v : text) :
  (BULLET ∉ clean_text x)
  ∧ (Forall (fun d => word_char d = true) u →
     Forall (fun d => word_char d = true) v →
     clean_text (u ++ BULLET :: v)
     = u ++ [226; 8364; 162] ++ match v with [] => [] | _ => SP :: v end).
Proof.
  split; [by destruct (clean_text_cleaned x) as (_ & _ & Hb & _)|].
  intros Hu Hv. unfold clean_text. cbv zeta. unfold replace.
  rewrite (re_sub_plain match_tag [SP] (fun d => d =? LT) match_tag_starts)
    by word_chars.
  rewrite (re_sub_plain _ _ (fun d => d =? LF) (match_lit_starts LF [LF]))
    by word_chars.
  rewrite (re_sub_plain _ _ isspace match_ws_starts) by word_chars.
  rewrite (re_sub_plain _ _ (fun d => d =? HYPHEN) match_hyphen_break_starts)
    by word_chars.
  assert (re_sub (match_lit [BULLET]) MOJIBAKE_BULLET (u ++ BULLET :: v)
          = u ++ MOJIBAKE_BULLET ++ v) as ->.
  { unfold re_sub.
    rewrite (sub_aux_app_plain _ _ (fun d => d =? BULLET)
               (match_lit_starts BULLET [])) by word_chars.
    change (sub_aux (match_lit [BULLET]) MOJIBAKE_BULLET 0 (BULLET :: v))
      with (MOJIBAKE_BULLET ++ sub_aux (match_lit [BULLET]) MOJIBAKE_BULLET 0 v).
    rewrite (sub_aux_plain _ _ (fun d => d =? BULLET)
               (match_lit_starts BULLET [])) by word_chars.
    done. }
  unfold MOJIBAKE_BULLET.
  rewrite (re_sub_plain _ _ (fun d => d =? NBSP) (match_lit_starts NBSP []))
    by word_chars.
  assert (Forall (fun d => isspace d = false) u) as Hus by word_chars.
  assert (Forall (fun d => isspace d = false) v) as Hvs by word_chars.
  unfold strip. rewrite lstrip_id by (by destruct Hus).
  destruct v as [|c v].
  - rewrite app_nil_r.
    change (u ++ [226; 8364; 162; 32]) with (u ++ [226; 8364; 162] ++ [SP]).
    rewrite app_assoc, rstrip_app_space, app_nil_r.
    apply rstrip_app_fixed; [done|]. reflexivity.
  - change (u ++ [226; 8364; 162; 32] ++ c :: v)
      with (u ++ [226; 8364; 162; 32] ++ (c :: v)).
    rewrite app_assoc.
    rewrite (rstrip_app_fixed _ (c :: v)); [|done|by apply rstrip_no_space].
    by rewrite <- app_assoc.
Qed.

Lemma clean_text_bullet_replaced_witness :
  (BULLET ∉ clean_text (cps "a" ++ [BULLET] ++ cps "<b>"))
  ∧ clean_text (cps "1." ++ BULLET :: cps "item")
    = cps "1." ++ [226; 8364; 162] ++ SP :: cps "item".
Proof.
  destruct (clean_text_bullet_replaced (cps "a" ++ [BULLET] ++ cps "<b>")
              (cps "1.") (cps "item")) as [Hno Hrep].
  split; [exact Hno|]. apply Hrep; repeat constructor.
Defined.

Example clean_text_bullet_in_tag :
  clean_text (cps "a<" ++ [BULLET] ++ cps ">b") = cps "a b".
Proof. reflexivity. Qed.

(** ** Query on any request body *)

Lemma contains_key_found (k : text) (data : json) :
  contains_key k data = Return true →
  (∃ v, getitem_key data k = Return v) ∨ getitem_key data k = Raise TypeError.
Proof.
  destruct data as [| | | | | |fields]; simpl; try done; try by right.
  destruct (dict_get k fields) as [v|]; [|done]. intros _. left. eauto.
Qed.

Lemma fields_missing_raises (R : Runtime) (data : json) (e : exn) :
  fields_missing R data = Raise e → e = TypeError.
Proof.
  unfold fields_missing. destruct (truthy R data); simpl; [|done].
  destruct data as [| | | | | |fields]; simpl; try done;
    try by intros [= <-].
  - destruct (is_substring _ _); simpl; done.
  - destruct (existsb _ _); simpl; done.
  - destruct (dict_get (cps "file_id") fields); simpl; [|done].
    by destruct (dict_get (cps "prompt") fields).
Qed.

Lemma fields_present (R : Runtime) (data : json) :
  fields_missing R data = Return false →
  contains_key (cps "file_id") data = Return true
  ∧ contains_key (cps "prompt") data = Return true.
Proof.
  unfold fields_missing. destruct (truthy R data); simpl; [|done].
  destruct (contains_key (cps "file_id") data) as [[|]|]; simpl; try done.
  destruct (contains_key (cps "prompt") data) as [[|]|]; simpl; done.
Qed.

(** X20: whatever [request.json] gives, the query handler ends in one of
    four ways: it passes on Flask's abort, it dies of an uncaught
    [TypeError], it answers 400 with an [error] field, or it answers 200;
    it sends a request, and then exactly one, only when it answers 200. *)
Theorem query_pdf_any_outcomes (R : Runtime) (W : World) (st : store)
    (request : request_json) :
  match query_pdf_any R W st request with
  | (AbortedWith status, out) => request = Aborted status ∧ out = []
  | (Unhandled e, out) => e = TypeError ∧ out = []
  | (Replied r, out) =>
      (status r = 400%nat ∧ out = []
       ∧ ∃ msg, body r = JObj [(cps "error", JStr msg)])
      ∨ (status r = 200%nat ∧ ∃ req, out = [req])
  end.
Proof.
  destruct request as [s|data]; simpl; [done|].
  destruct (fields_missing R data) as [[|]|e] eqn:Em.
  - left. simpl. eauto.
  - destruct (fields_present R data Em) as [Hid Hp].
    destruct (contains_key_found _ _ Hid) as [[fid ->]| ->]; simpl; [|done].
    destruct (contains_key_found _ _ Hp) as [[p ->]| ->]; simpl; [|done].
    destruct fid as [| | | |id|items|fs]; simpl; try done;
      try (left; simpl; eauto).
    destruct (sf_text <$> st !! id) as [[|c t]|]; simpl.
    + left. simpl. eauto.
    + right. simpl. eauto.
    + left. simpl. eauto.
  - split; [|done]. by apply (fields_missing_raises R data).
Qed.

Example query_pdf_any_list_body :
  query_pdf_any sample_runtime offline_world sample_store
    (Loaded (JArr [JStr (cps "file_id"); JStr (cps "prompt")]))
  = (Unhandled TypeError, []).
Proof. reflexivity. Qed.

Example query_pdf_any_list_file_id :
  query_pdf_any sample_runtime offline_world sample_store
    (Loaded (JObj [(cps "file_id", JArr [JStr (cps "id-1")]);
                   (cps "prompt", JStr (cps "Is it benign?"))]))
  = (Unhandled TypeError, []).
Proof. reflexivity. Qed.

Example query_pdf_any_numeric_prompt :
  (query_pdf_any sample_runtime offline_world sample_store
     (Loaded (JObj [(cps "file_id", JStr (cps "id-1"));
                    (cps "prompt", JInt 7)]))).1
  = Replied {| status := 200;
               body := JObj [(cps "file_id", JStr (cps "id-1"));
                             (cps "prompt", JInt 7);
                             (cps "response",
                              JStr (cps "Error getting AI response: "
                                    ++ cps "Connection refused"))] |}.
Proof. reflexivity. Qed.

(** X30: on a body that is an object whose [file_id] and [prompt], where
    present, are strings, and on the body [null], the handler on any body
    does exactly what [query_pdf] does: the same response and the same
    requests, and no exception. *)
Theorem query_pdf_any_agrees (R : Runtime) (W : World) (st : store)
    (fields : list (text * json)) (data : query_data) :
  as_query_data fields = Some data →
  query_pdf_any R W st (Loaded (JObj fields))
    = (Replied (query_pdf W st (Some data)).1, (query_pdf W st (Some data)).2)
  ∧ query_pdf_any R W st (Loaded JNull)
    = (Replied (query_pdf W st None).1, (query_pdf W st None).2).
Proof.
  intros Hdata. split; [|reflexivity].
  unfold as_query_data, string_field in Hdata.
  unfold query_pdf_any, fields_missing, query_pdf.
  destruct fields as [|kv fields']; [by injection Hdata as <-|].
  remember (kv :: fields') as fields eqn:Hf.
  assert (truthy R (JObj fields) = true) as -> by (by rewrite Hf).
  simpl negb. cbv iota. unfold contains_key, getitem_key.
  destruct (dict_get (cps "file_id") fields) as [[| | | |id| |]|];
    try done; simpl;
    destruct (dict_get (cps "prompt") fields) as [[| | | |p| |]|];
    try done; simpl; injection Hdata as <-; try reflexivity.
  by destruct (sf_text <$> st !! id) as [[|c t]|].
Qed.

Lemma query_pdf_any_agrees_witness :
  query_pdf_any sample_runtime offline_world sample_store
    (Loaded (JObj [(cps "prompt", JStr (cps "Is it benign?"));
                   (cps "file_id", JStr (cps "id-1"));
                   (cps "lang", JStr (cps "en"))]))
    = (Replied (query_pdf offline_world sample_store
                  (Some {| q_file_id := Some (cps "id-1");
                           q_prompt := Some (cps "Is it benign?") |})).1,
       (query_pdf offline_world sample_store
          (Some {| q_file_id := Some (cps "id-1");
                   q_prompt := Some (cps "Is it benign?") |})).2)
  ∧ query_pdf_any sample_runtime offline_world sample_store (Loaded JNull)
    = (Replied (query_pdf offline_world sample_store None).1,
       (query_pdf offline_world sample_store None).2).
Proof.
  apply (query_pdf_any_agrees sample_runtime offline_world sample_store
           [(cps "prompt", JStr (cps "Is it benign?"));
            (cps "file_id", JStr (cps "id-1"));
            (cps "lang", JStr (cps "en"))]
           {| q_file_id := Some (cps "id-1");
              q_prompt := Some (cps "Is it benign?") |}).
  reflexivity.
Defined.
